(** * RAG agent control loop: a shallow embedding and its properties

    The development follows the TypeScript sources of the LangGraph
    retrieval agent: the state schema ([state/schemas.ts]), the agent node
    and the router ([nodes/rag-nodes.ts]), the knowledge-base retrieval
    tool ([tools/kb-retrieval.ts]), the message helpers ([utils/index.ts]),
    the graph and its public entry points ([agents/rag-agent.ts]) and the
    chat route of the HTTP server ([server.ts]).

    External effects (the chat model, the Bedrock client, the thread-id
    generator) are functions over an abstract [World]; JavaScript
    exceptions are the left injection of a sum. *)

From stdpp Require Import gmap strings list pretty.
From Stdlib Require Import ZArith Ascii.

Open Scope string_scope.

Set Warnings "-register-all".

(** ** JavaScript values *)

(** The JSON-shaped fragment of JavaScript values.  A missing property
    ([undefined]) is [None] at the places that read one.  Numbers are the
    integers; objects keep their properties in insertion order. *)
Inductive json : Type :=
  | JNull
  | JBool (b : bool)
  | JNum (n : Z)
  | JStr (s : string)
  | JArr (items : list json)
  | JObj (fields : list (string * json)).

(** [obj[key]] on a property list. *)
Fixpoint field (key : string) (fields : list (string * json)) : option json :=
  match fields with
  | [] => None
  | (k, v) :: rest => if String.eqb k key then Some v else field key rest
  end.

(** [value.key] for an arbitrary value: only objects carry properties. *)
Definition prop (key : string) (value : json) : option json :=
  match value with
  | JObj fields => field key fields
  | _ => None
  end.

(** [Array.prototype.join] on strings. *)
Definition join (sep : string) (parts : list string) : string :=
  String.concat sep parts.

(** [String(value)].  Inside an array, [null] prints as the empty string
    ([Array.prototype.toString] is [join(",")]). *)
Fixpoint jsString (value : json) : string :=
  match value with
  | JNull => "null"
  | JBool b => if b then "true" else "false"
  | JNum n => pretty n
  | JStr s => s
  | JArr items =>
      join ","
        ((fix each (l : list json) : list string :=
            match l with
            | [] => []
            | JNull :: rest => "" :: each rest
            | x :: rest => jsString x :: each rest
            end) items)
  | JObj _ => "[object Object]"
  end.

(** The conversion [join] applies to each element: [undefined] and [null]
    become the empty string, anything else goes through [String]. *)
Definition joinItem (item : option json) : string :=
  match item with
  | None | Some JNull => ""
  | Some v => jsString v
  end.

(** Truthiness, as tested by [!value]. *)
Definition truthy (value : option json) : bool :=
  match value with
  | None | Some JNull => false
  | Some (JBool b) => b
  | Some (JNum n) => negb (n =? 0)%Z
  | Some (JStr s) => negb (String.eqb s "")
  | Some (JArr _) | Some (JObj _) => true
  end.

(** *** JSON.stringify *)

Definition hexDigit (n : nat) : ascii :=
  match n with
  | 0 => "0" | 1 => "1" | 2 => "2" | 3 => "3" | 4 => "4" | 5 => "5"
  | 6 => "6" | 7 => "7" | 8 => "8" | 9 => "9" | 10 => "a" | 11 => "b"
  | 12 => "c" | 13 => "d" | 14 => "e" | _ => "f"
  end%char.

Definition DQUOTE : ascii := "034"%char.
Definition BACKSLASH : ascii := "092"%char.

(** A backslash escape: the backslash followed by [body]. *)
Definition escape (body : string) : string := String BACKSLASH body.

(** One character of a quoted JSON string (QuoteJSONString). *)
Definition quoteChar (c : ascii) : string :=
  let n := nat_of_ascii c in
  if (n =? 34)%nat then escape (String DQUOTE "")
  else if (n =? 92)%nat then escape (String BACKSLASH "")
  else if (n =? 8)%nat then escape "b"
  else if (n =? 12)%nat then escape "f"
  else if (n =? 10)%nat then escape "n"
  else if (n =? 13)%nat then escape "r"
  else if (n =? 9)%nat then escape "t"
  else if (n <? 32)%nat then
    escape ("u00" +:+ String (hexDigit (n / 16)) (String (hexDigit (n mod 16)) ""))
  else String c "".

Fixpoint quoteChars (s : string) : string :=
  match s with
  | EmptyString => ""
  | String c rest => quoteChar c +:+ quoteChars rest
  end.

Definition quoteJSONString (s : string) : string :=
  String DQUOTE (quoteChars s +:+ String DQUOTE "").

(** [JSON.stringify(value)] without indentation. *)
Fixpoint stringify (value : json) : string :=
  match value with
  | JNull => "null"
  | JBool b => if b then "true" else "false"
  | JNum n => pretty n
  | JStr s => quoteJSONString s
  | JArr items =>
      "[" +:+
      join ","
        ((fix each (l : list json) : list string :=
            match l with
            | [] => []
            | x :: rest => stringify x :: each rest
            end) items)
      +:+ "]"
  | JObj fields =>
      "{" +:+
      join ","
        ((fix each (l : list (string * json)) : list string :=
            match l with
            | [] => []
            | (k, v) :: rest =>
                (quoteJSONString k +:+ ":" +:+ stringify v) :: each rest
            end) fields)
      +:+ "}"
  end.

(** ** Messages *)

(** A tool call requested by the model: [{ id, name, args }]. *)
Record ToolCall : Type := mkToolCall {
  call_id : string;
  call_name : string;
  call_args : json;
}.

(** The message classes of [@langchain/core/messages].  Only an
    [AIMessage] has a [tool_calls] property, and it is optional. *)
Inductive Message : Type :=
  | HumanMessage (content : json)
  | AIMessage (content : json) (tool_calls : option (list ToolCall))
  | SystemMessage (content : json)
  | ToolMessage (content : json) (tool_call_id : string).

Definition content (m : Message) : json :=
  match m with
  | HumanMessage c | AIMessage c _ | SystemMessage c | ToolMessage c _ => c
  end.

(** [message.tool_calls]; [None] is [undefined]. *)
Definition tool_calls (m : Message) : option (list ToolCall) :=
  match m with
  | AIMessage _ calls => calls
  | _ => None
  end.

(** [utils/index.ts], the type guard of [getMessageText]'s filter:
    [typeof block === "object" && block !== null && "type" in block &&
    block.type === "text"]. *)
Definition isTextBlock (block : json) : bool :=
  match block with
  | JObj fields =>
      match field "type" fields with
      | Some (JStr t) => String.eqb t "text"
      | _ => false
      end
  | _ => false
  end.

(** [utils/index.ts], [getMessageText]. *)
Definition getMessageText (message : Message) : string :=
  match content message with
  | JStr s => s
  | JArr blocks =>
      join ""
        (map joinItem (map (prop "text") (List.filter isTextBlock blocks)))
  | _ => ""
  end.

(** ** Exceptions *)

(** A thrown value: an [Error] instance with its [message], or any other
    value ([None] is [undefined]). *)
Inductive Thrown : Type :=
  | ErrorObj (message : string)
  | NonError (value : option json).

(** [error instanceof Error ? error.message : String(error)], the idiom of
    the catch blocks in [tools/kb-retrieval.ts] and [server.ts]. *)
Definition errorText (error : Thrown) : string :=
  match error with
  | ErrorObj message => message
  | NonError None => "undefined"
  | NonError (Some value) => jsString value
  end.

(** ** Configuration ([config/index.ts]) *)

(** The environment variables the modelled code depends on;
    [RETRIEVAL_TOP_K] is given as the number [z.coerce] reads from it. *)
Record Env : Type := mkEnv {
  KNOWLEDGE_BASE_ID : option string;
  RETRIEVAL_TOP_K : option Z;
}.

Record Config : Type := mkConfig {
  knowledgeBaseId : string;
  retrievalTopK : Z;
}.

(** [ConfigSchema.parse(raw)] on these two fields:
    [knowledgeBaseId: z.string().min(1, ...)] and
    [retrievalTopK: z.coerce.number().positive().default(5)].
    [None] stands for the thrown [ZodError]. *)
Definition ConfigSchema_parse (raw : Env) : option Config :=
  match KNOWLEDGE_BASE_ID raw with
  | None => None
  | Some kb =>
      if (String.length kb <? 1)%nat then None
      else
        match RETRIEVAL_TOP_K raw with
        | None => Some {| knowledgeBaseId := kb; retrievalTopK := 5 |}
        | Some k =>
            if (0 <? k)%Z
            then Some {| knowledgeBaseId := kb; retrievalTopK := k |}
            else None
        end
  end.

(** ** Conversation state ([state/schemas.ts]) *)

Record AgentState : Type := mkAgentState {
  messages : list Message;
  currentStep : string;
  error : option string;
  iterations : nat;
}.

(** A partial update: a key that is absent leaves its channel alone. *)
Record AgentStateUpdate : Type := mkUpdate {
  set_messages : option (list Message);
  set_currentStep : option string;
  set_error : option (option string);
  set_iterations : option nat;
}.

(** Modelled from the spec: the built-in reducer of the [messages] channel
    ([MessagesAnnotation.spec] of the LangGraph library), whose code is not
    among the sources.  The spec's merge rule is append-only concatenation:
    new messages are added after all existing ones, in emission order. *)
Definition messagesStateReducer (left right : list Message) : list Message :=
  left ++ right.

(** The three reducers written out in [AgentStateAnnotation]:
    [(_prev, next) => next]. *)
Definition currentStep_reducer (_prev next : string) : string := next.
Definition error_reducer (_prev next : option string) : option string := next.
Definition iterations_reducer (_prev next : nat) : nat := next.

(** The channel defaults of [AgentStateAnnotation]. *)
Definition defaultState : AgentState :=
  {| messages := []; currentStep := "idle"; error := None; iterations := 0 |}.

(** Each channel present in the update goes through its reducer. *)
Definition applyUpdate (state : AgentState) (update : AgentStateUpdate)
  : AgentState :=
  {| messages :=
       match set_messages update with
       | Some new => messagesStateReducer (messages state) new
       | None => messages state
       end;
     currentStep :=
       match set_currentStep update with
       | Some next => currentStep_reducer (currentStep state) next
       | None => currentStep state
       end;
     error :=
       match set_error update with
       | Some next => error_reducer (error state) next
       | None => error state
       end;
     iterations :=
       match set_iterations update with
       | Some next => iterations_reducer (iterations state) next
       | None => iterations state
       end |}.

(** ** Router ([nodes/rag-nodes.ts]) *)

Inductive Route : Type := tools | __end__.

(** [messages[messages.length - 1]]. *)
Definition lastOf {A : Type} (l : list A) : option A := last l.

Definition routeAgentResponse (state : AgentState) : Route :=
  if (10 <=? iterations state)%nat then __end__
  else
    match lastOf (messages state) with
    | None => __end__
    | Some lastMessage =>
        match tool_calls lastMessage with
        | Some calls =>
            if (0 <? length calls)%nat then tools else __end__
        | None => __end__
        end
    end.

(** ** The retrieval tool ([tools/kb-retrieval.ts]) *)

(** The request handed to the Bedrock client: [knowledgeBaseId],
    [retrievalQuery.text] and
    [retrievalConfiguration.vectorSearchConfiguration.numberOfResults]. *)
Record RetrieveCommand : Type := mkRetrieveCommand {
  cmd_knowledgeBaseId : string;
  cmd_text : string;
  cmd_numberOfResults : Z;
}.

(** One retrieval result; [result_text] is [r.content?.text]. *)
Record RetrievalResult : Type := mkRetrievalResult {
  result_text : option string;
}.

Record RetrieveResponse : Type := mkRetrieveResponse {
  retrievalResults : option (list RetrievalResult);
}.

(** The tool's input after its schema: [{ query, topK? }]. *)
Record KBInput : Type := mkKBInput {
  query : string;
  topK : option Z;
}.

Definition kbRetrievalTool_name : string := "knowledge_base_retrieval".

(** The tool's schema,
    [z.object({ query: z.string(), topK: z.number().optional() })];
    [None] when the arguments are rejected. *)
Definition kbRetrievalTool_schema (args : json) : option KBInput :=
  match args with
  | JObj fields =>
      match field "query" fields with
      | Some (JStr q) =>
          match field "topK" fields with
          | None => Some {| query := q; topK := None |}
          | Some (JNum k) => Some {| query := q; topK := Some k |}
          | Some _ => None
          end
      | _ => None
      end
  | _ => None
  end.

(** [topK ?? config.retrievalTopK]. *)
Definition numberOfResults (config : Config) (input : KBInput) : Z :=
  match topK input with
  | Some k => k
  | None => retrievalTopK config
  end.

(** The [RetrieveCommand] built inside the [try] block. *)
Definition retrieveCommand (config : Config) (input : KBInput)
  : RetrieveCommand :=
  {| cmd_knowledgeBaseId := knowledgeBaseId config;
     cmd_text := query input;
     cmd_numberOfResults := numberOfResults config input |}.

(** [(response.retrievalResults ?? []).map((r) => r.content?.text ?? "")
    .filter((text) => text.length > 0)]. *)
Definition usableTexts (response : RetrieveResponse) : list string :=
  List.filter (fun text => (0 <? String.length text)%nat)
    (map (fun r => default "" (result_text r))
       (default [] (retrievalResults response))).

(** [results.map((text, index) => ({ rank: index + 1, text }))]. *)
Definition rankedChunks (results : list string) : list json :=
  imap (fun index text =>
          JObj [("rank", JNum (Z.of_nat index + 1)); ("text", JStr text)])
    results.

Definition noResultsPayload (input : KBInput) : json :=
  JObj [("status", JStr "no_results");
        ("message",
         JStr "No relevant results found in the knowledge base for this query. Try rephrasing.");
        ("query", JStr (query input))].

Definition successPayload (input : KBInput) (results : list string) : json :=
  JObj [("status", JStr "success");
        ("totalResults", JNum (Z.of_nat (length results)));
        ("query", JStr (query input));
        ("chunks", JArr (rankedChunks results))].

Definition errorPayload (input : KBInput) (error : Thrown) : json :=
  let message := errorText error in
  JObj [("status", JStr "error");
        ("message", JStr ("Failed to retrieve documents: " +:+ message));
        ("query", JStr (query input))].

(** ** The agent's system prompt ([nodes/rag-nodes.ts]) *)

Definition SYSTEM_PROMPT : string :=
"You are a Budget Book RAG Assistant — an expert at answering questions about government and organizational budget documents.

You have access to a retrieval tool that searches an AWS Bedrock Knowledge Base containing budget book documents.

## How You Work

1. When a user asks a question, use the `knowledge_base_retrieval` tool to search for relevant budget document chunks.
2. Analyze the retrieved chunks carefully and synthesize a clear, accurate answer.
3. If the retrieved context doesn't fully answer the question, you may:
   - Rephrase your query and search again for better results
   - Search for related terms or concepts
   - Clearly state what information you found vs. what is missing
4. Always cite which document(s) your answer is based on when possible.

## Guidelines

- **Accuracy**: Only state facts that are supported by the retrieved chunks. Do not hallucinate or infer budget figures.
- **Transparency**: If the retrieved context is insufficient, say so clearly rather than guessing.
- **Specificity**: When discussing budget figures, include exact numbers, line items, and fiscal years from the source documents.
- **Format**: Structure your responses with markdown formatting — use headings, bold, numbered lists, and bullet points for clarity.

## Response Format

Structure your answers with:
- A direct answer to the question
- Supporting details from the retrieved chunks
- Any caveats about information completeness".

(** ** Effects *)

(** The outcome of a graph run that does not reach its end: a node threw,
    or the engine's recursion limit was reached. *)
Inductive RunError : Type :=
  | NodeError (thrown : Thrown)
  | GraphRecursionError.

(** What the chat model returns: the fields of an [AIMessage]. *)
Record ModelReply : Type := mkModelReply {
  reply_content : json;
  reply_tool_calls : option (list ToolCall);
}.

(** The nodes of the graph built by [buildRagAgentGraph]. *)
Inductive Node : Type := START | AGENT | TOOLS | END.

#[global] Instance Node_eq_dec : EqDecision Node.
Proof. solve_decision. Defined.

(** The engine's default [recursionLimit]; no caller overrides it. *)
Definition recursionLimit : nat := 25.

(** JavaScript white space, as far as one-byte characters go: TAB, LF, VT,
    FF, CR and SPACE. *)
Definition isWhiteSpace (c : ascii) : bool :=
  let n := nat_of_ascii c in
  ((9 <=? n) && (n <=? 13) || (n =? 32))%nat.

Fixpoint trimStart (s : string) : string :=
  match s with
  | EmptyString => EmptyString
  | String c rest => if isWhiteSpace c then trimStart rest else s
  end.

(** [String.prototype.trim]. *)
Definition trim (s : string) : string :=
  String.rev (trimStart (String.rev (trimStart s))).

(** An HTTP reply: [res.status(code).json(body)]. *)
Record HttpResponse : Type := mkHttpResponse {
  status : nat;
  body : json;
}.

(** [invokeAgent]'s options; the chat route passes no [config]. *)
Record AgentInvokeOptions : Type := mkOptions {
  opt_query : string;
  opt_threadId : option string;
}.

Section Agent.

(** Everything outside the process: the model provider, the knowledge
    base, the clock and the random source. *)
Variable World : Type.

(** [llmWithTools.invoke(messages)], the chat model with the retrieval
    tool bound. *)
Variable generate : list Message -> World -> World * (Thrown + ModelReply).

(** [client.send(command)] on the Bedrock agent runtime client. *)
Variable send : RetrieveCommand -> World -> World * (Thrown + RetrieveResponse).

(** [generateThreadId()], built from the clock and [Math.random]. *)
Variable generateThreadId : World -> World * string.

(** The content the prebuilt tool executor gives to a call it cannot run
    (a name that is not registered, arguments the schema rejects). *)
Variable toolFailureContent : ToolCall -> string.

(** The two regular-expression passes of the chat route over the raw
    answer: the list of [<thinking>] bodies and the answer without them. *)
Variable thinkingMatches : string -> list string.
Variable stripThinking : string -> string.

(** The cached result of [getConfig()]. *)
Variable config : Config.

Abbreviation Checkpoints := (gmap string AgentState).

(** *** [kbRetrievalTool] *)

Definition kbRetrievalTool (input : KBInput) (w : World) : World * string :=
  let command := retrieveCommand config input in
  match send command w with
  | (w', inr response) =>
      let results := usableTexts response in
      if (length results =? 0)%nat
      then (w', stringify (noResultsPayload input))
      else (w', stringify (successPayload input results))
  | (w', inl error) =>
      (w', stringify (errorPayload input error))
  end.

(** *** The tool node *)

(** Modelled from the spec: one tool call of the Tool Step, run by the
    prebuilt [ToolNode] (library code, not among the sources).  The tool is
    resolved by name, only [knowledge_base_retrieval] being registered;
    its text result becomes a tool message carrying the call's id. *)
Definition runTool (call : ToolCall) (w : World) : World * Message :=
  if String.eqb (call_name call) kbRetrievalTool_name then
    match kbRetrievalTool_schema (call_args call) with
    | Some input =>
        let '(w', output) := kbRetrievalTool input w in
        (w', ToolMessage (JStr output) (call_id call))
    | None => (w, ToolMessage (JStr (toolFailureContent call)) (call_id call))
    end
  else (w, ToolMessage (JStr (toolFailureContent call)) (call_id call)).

(** Modelled from the spec: the calls are run in the order of the call
    list, and the results keep that order. *)
Fixpoint runTools (calls : list ToolCall) (w : World) : World * list Message :=
  match calls with
  | [] => (w, [])
  | call :: rest =>
      let '(w1, output) := runTool call w in
      let '(w2, outputs) := runTools rest w1 in
      (w2, output :: outputs)
  end.

(** Modelled from the spec: [toolNode = new ToolNode([...ragTools])].  Its
    input is a state whose last message is an ai message; its update
    appends one tool message per call and sets [currentStep] to
    [tools]. *)
Definition toolNode (state : AgentState) (w : World)
  : World * (Thrown + AgentStateUpdate) :=
  match lastOf (messages state) with
  | Some (AIMessage _ calls) =>
      let '(w', outputs) := runTools (default [] calls) w in
      (w', inr {| set_messages := Some outputs;
                  set_currentStep := Some "tools";
                  set_error := None;
                  set_iterations := None |})
  | _ => (w, inl (ErrorObj "ToolNode only accepts AIMessages as input."))
  end.

(** *** The agent node *)

Definition agentNode (state : AgentState) (w : World)
  : World * (Thrown + AgentStateUpdate) :=
  let systemMessage := SystemMessage (JStr SYSTEM_PROMPT) in
  let messages := systemMessage :: messages state in
  match generate messages w with
  | (w', inl thrown) => (w', inl thrown)
  | (w', inr reply) =>
      let response := AIMessage (reply_content reply) (reply_tool_calls reply) in
      (w', inr {| set_messages := Some [response];
                  set_currentStep := Some "agent";
                  set_error := None;
                  set_iterations := Some (iterations state + 1) |})
  end.

(** *** The graph ([agents/rag-agent.ts]) *)

(** The targets of the conditional edge out of [agent]:
    [{ tools: "tools", __end__: "__end__" }]. *)
Definition conditionalEdge (route : Route) : Node :=
  match route with
  | tools => TOOLS
  | __end__ => END
  end.

(** One node transition of [buildRagAgentGraph]: the node runs, its update
    goes through the reducers, and the outgoing edge gives the next node:
    [__start__ -> agent], [agent -> routeAgentResponse], [tools -> agent]. *)
Definition transition (node : Node) (state : AgentState) (w : World)
  : World * (Thrown + (Node * AgentState)) :=
  match node with
  | START => (w, inr (AGENT, state))
  | AGENT =>
      match agentNode state w with
      | (w', inl thrown) => (w', inl thrown)
      | (w', inr update) =>
          let state' := applyUpdate state update in
          (w', inr (conditionalEdge (routeAgentResponse state'), state'))
      end
  | TOOLS =>
      match toolNode state w with
      | (w', inl thrown) => (w', inl thrown)
      | (w', inr update) => (w', inr (AGENT, applyUpdate state update))
      end
  | END => (w, inr (END, state))
  end.

(** The run of the compiled graph on one thread.  [fuel] counts the
    transitions the recursion limit still allows; the state is saved to
    the thread's checkpoint after every completed transition, and a
    failed transition saves nothing. *)
Fixpoint run (fuel : nat) (node : Node) (thread : string)
    (saved : Checkpoints) (state : AgentState) (w : World)
  : World * Checkpoints * (RunError + AgentState) :=
  match node with
  | END => (w, saved, inr state)
  | _ =>
      match fuel with
      | 0 => (w, saved, inl GraphRecursionError)
      | S fuel' =>
          match transition node state w with
          | (w', inl thrown) => (w', saved, inl (NodeError thrown))
          | (w', inr (node', state')) =>
              run fuel' node' thread (<[thread := state']> saved) state' w'
          end
      end
  end.

(** [agent.invoke(input, { configurable: { thread_id } })]: the thread's
    latest checkpoint (the channel defaults for a new thread) takes the
    input through the reducers, then the graph runs from [__start__]. *)
Definition invoke (input : AgentStateUpdate) (thread : string)
    (saved : Checkpoints) (w : World)
  : World * Checkpoints * (RunError + AgentState) :=
  let state := applyUpdate (default defaultState (saved !! thread)) input in
  run recursionLimit START thread (<[thread := state]> saved) state w.

(** The input of every public entry point: [{ messages: [userMessage] }]. *)
Definition userInput (query : string) : AgentStateUpdate :=
  {| set_messages := Some [HumanMessage (JStr query)];
     set_currentStep := None;
     set_error := None;
     set_iterations := None |}.

(** [threadId ?? generateThreadId()]. *)
Definition threadOf (threadId : option string) (w : World) : World * string :=
  match threadId with
  | Some thread => (w, thread)
  | None => generateThreadId w
  end.

(** [invokeAgent(options)].  Reading [content] off a missing last message
    is a [TypeError]. *)
Definition invokeAgent (options : AgentInvokeOptions)
    (saved : Checkpoints) (w : World)
  : World * Checkpoints * (RunError + string) :=
  let '(w0, thread) := threadOf (opt_threadId options) w in
  match invoke (userInput (opt_query options)) thread saved w0 with
  | (w', saved', inl failure) => (w', saved', inl failure)
  | (w', saved', inr result) =>
      match lastOf (messages result) with
      | Some lastMessage => (w', saved', inr (getMessageText lastMessage))
      | None =>
          (w', saved',
           inl (NodeError (ErrorObj
             "Cannot read properties of undefined (reading 'content')")))
      end
  end.

(** The configurations of a run on [thread]: node, state, checkpoints and
    world.  [reaches c c'] holds when the run that stands at [c] comes to
    stand at [c'] after some completed transitions, each one saved. *)
Inductive reaches (thread : string)
  : Node * AgentState * Checkpoints * World ->
    Node * AgentState * Checkpoints * World -> Prop :=
  | reaches_here c : reaches thread c c
  | reaches_next node state saved w w1 node1 state1 c' :
      node <> END ->
      transition node state w = (w1, inr (node1, state1)) ->
      reaches thread (node1, state1, <[thread := state1]> saved, w1) c' ->
      reaches thread (node, state, saved, w) c'.

(** [continueConversation(threadId, query)]: the body of [invokeAgent] with
    the thread given. *)
Definition continueConversation (threadId query : string)
    (saved : Checkpoints) (w : World)
  : World * Checkpoints * (RunError + string) :=
  invokeAgent {| opt_query := query; opt_threadId := Some threadId |} saved w.

(** *** The chat route ([server.ts]) *)

(** The value a caller of the graph catches for a failed run. *)
Definition thrownOf (failure : RunError) : Thrown :=
  match failure with
  | NodeError thrown => thrown
  | GraphRecursionError =>
      ErrorObj "Recursion limit of 25 reached without hitting a stop condition."
  end.

Definition noMessageProvided : HttpResponse :=
  {| status := 400;
     body := JObj [("error", JStr "No message provided");
                   ("response", JStr "Please provide a message to process.")] |}.

(** [app.post("/api/chat", ...)] on the parsed request body.  The guard is
    [!message || typeof message !== "string" || !message.trim()]. *)
Definition chatRoute (reqBody : json) (saved : Checkpoints) (w : World)
  : World * Checkpoints * HttpResponse :=
  let message := prop "message" reqBody in
  match message with
  | Some (JStr text) =>
      if negb (truthy message) || negb (truthy (Some (JStr (trim text))))
      then (w, saved, noMessageProvided)
      else
        let userMessage := trim text in
        match
          invokeAgent {| opt_query := userMessage; opt_threadId := None |} saved w
        with
        | (w', saved', inr rawResponse) =>
            (w', saved',
             {| status := 200;
                body := JObj [("success", JBool true);
                              ("response", JStr (stripThinking rawResponse));
                              ("thinking",
                               JArr (map JStr (thinkingMatches rawResponse)));
                              ("message", JStr userMessage)] |})
        | (w', saved', inl failure) =>
            let errMsg := errorText (thrownOf failure) in
            (w', saved',
             {| status := 500;
                body := JObj [("error", JStr "Processing error");
                              ("response",
                               JStr ("I apologize, but I encountered an error processing your request: "
                                     +:+ errMsg))] |})
        end
  | _ => (w, saved, noMessageProvided)
  end.

End Agent.

Arguments kbRetrievalTool {World} send config input w.
Arguments runTool {World} send toolFailureContent config call w.
Arguments runTools {World} send toolFailureContent config calls w.
Arguments toolNode {World} send toolFailureContent config state w.
Arguments agentNode {World} generate state w.
Arguments transition {World} generate send toolFailureContent config node state w.
Arguments run {World} generate send toolFailureContent config fuel node thread saved state w.
Arguments threadOf {World} generateThreadId threadId w.
Arguments reaches {World} generate send toolFailureContent config thread _ _.
Arguments invoke {World} generate send toolFailureContent config input thread saved w.
Arguments invokeAgent {World} generate send generateThreadId toolFailureContent config options saved w.
Arguments continueConversation {World} generate send generateThreadId toolFailureContent config threadId query saved w.
Arguments chatRoute {World} generate send generateThreadId toolFailureContent thinkingMatches stripThinking config reqBody saved w.

(** ** Concrete capabilities

    Stand-ins for the model provider and the knowledge base, over a world
    that records every request made to them.  They serve the examples that
    accompany the properties below. *)
Module Scenario.

Record World : Type := mkWorld {
  modelCalls : list (list Message);
  commands : list RetrieveCommand;
  threads : nat;
}.

Definition w0 : World :=
  {| modelCalls := []; commands := []; threads := 0 |}.

Definition noteModelCall (history : list Message) (w : World) : World :=
  {| modelCalls := modelCalls w ++ [history];
     commands := commands w;
     threads := threads w |}.

Definition noteCommand (command : RetrieveCommand) (w : World) : World :=
  {| modelCalls := modelCalls w;
     commands := commands w ++ [command];
     threads := threads w |}.

(** A retrieval call that leaves [topK] out. *)
Definition budgetCall : ToolCall :=
  {| call_id := "call_1";
     call_name := kbRetrievalTool_name;
     call_args := JObj [("query", JStr "total budget")] |}.

Definition budgetInput : KBInput :=
  {| query := "total budget"; topK := None |}.

Definition isToolMessage (m : Message) : bool :=
  match m with
  | ToolMessage _ _ => true
  | _ => false
  end.

(** A model that asks for a retrieval on every turn. *)
Definition alwaysCalling (history : list Message) (w : World)
  : World * (Thrown + ModelReply) :=
  (noteModelCall history w,
   inr {| reply_content := JStr "Let me search.";
          reply_tool_calls := Some [budgetCall] |}).

(** A model that asks for one retrieval, then answers from its result. *)
Definition answering (history : list Message) (w : World)
  : World * (Thrown + ModelReply) :=
  (noteModelCall history w,
   inr (if existsb isToolMessage history
        then {| reply_content :=
                  JArr [JObj [("type", JStr "text"); ("text", JStr "The total budget ")];
                        JObj [("type", JStr "tool_use"); ("id", JStr "x")];
                        JObj [("type", JStr "text"); ("text", JStr "is 12.")]];
                reply_tool_calls := Some [] |}
        else {| reply_content := JStr "Let me search.";
                reply_tool_calls := Some [budgetCall] |})).

(** A model that asks for one retrieval and is down when called again. *)
Definition failingLater (history : list Message) (w : World)
  : World * (Thrown + ModelReply) :=
  (noteModelCall history w,
   if existsb isToolMessage history
   then inl (ErrorObj "provider timeout")
   else inr {| reply_content := JStr "Let me search.";
               reply_tool_calls := Some [budgetCall] |}).


(** Five results, three of them usable. *)
Definition threePassages : RetrieveResponse :=
  {| retrievalResults :=
       Some [ {| result_text := Some "Revenue" |};
              {| result_text := Some "" |};
              {| result_text := Some "Spending" |};
              {| result_text := None |};
              {| result_text := Some "Debt" |} ] |}.

(** A knowledge base that answers every request with them. *)
Definition sendThree (command : RetrieveCommand) (w : World)
  : World * (Thrown + RetrieveResponse) :=
  (noteCommand command w, inr threePassages).

(** A knowledge base with nothing usable. *)
Definition sendNone (command : RetrieveCommand) (w : World)
  : World * (Thrown + RetrieveResponse) :=
  (noteCommand command w,
   inr {| retrievalResults := Some [ {| result_text := None |} ] |}).

(** A knowledge base that cannot be reached. *)
Definition sendFailing (command : RetrieveCommand) (w : World)
  : World * (Thrown + RetrieveResponse) :=
  (noteCommand command w, inl (ErrorObj "socket hang up")).

Definition generateThreadId (w : World) : World * string :=
  ({| modelCalls := modelCalls w;
      commands := commands w;
      threads := S (threads w) |},
   "thread_" +:+ pretty (threads w)).

Definition toolFailureContent (call : ToolCall) : string :=
  "Error: the tool call could not be run.".

Definition thinkingMatches (raw : string) : list string := [].
Definition stripThinking (raw : string) : string := raw.

(** The configuration read from an environment without [RETRIEVAL_TOP_K],
    and the one read with [RETRIEVAL_TOP_K=8]. *)
Definition config : Config :=
  {| knowledgeBaseId := "KB1"; retrievalTopK := 5 |}.

Definition config8 : Config :=
  {| knowledgeBaseId := "KB1"; retrievalTopK := 8 |}.

(** A thread four agent steps into its conversation. *)
Definition fourStepsIn : AgentState :=
  {| messages := [HumanMessage (JStr "What was spent on roads?");
                  AIMessage (JStr "Roads took 3.") (Some [])];
     currentStep := "agent";
     error := None;
     iterations := 4 |}.

End Scenario.

(** ** Further functions of the sources *)

(** *** Message helpers and text utilities ([utils/index.ts]) *)

(** [message._getType()]. *)
Definition getType (m : Message) : string :=
  match m with
  | HumanMessage _ => "human"
  | AIMessage _ _ => "ai"
  | SystemMessage _ => "system"
  | ToolMessage _ _ => "tool"
  end.





Definition NEWLINE : string := String "010"%char "".

(** [formatMessages]: one line [[role]: text] per message, joined by
    newlines. *)
Definition formatMessages (history : list Message) : string :=
  join NEWLINE
    (map (fun m => "[" +:+ getType m +:+ "]: " +:+ getMessageText m) history).

Fixpoint takeChars (n : nat) (s : string) : string :=
  match n, s with
  | S n', String c rest => String c (takeChars n' rest)
  | _, _ => ""
  end.

Fixpoint dropChars (n : nat) (s : string) : string :=
  match n, s with
  | S n', String _ rest => dropChars n' rest
  | _, _ => s
  end.

(** [String.prototype.substring(start, end)]: both indices are clamped to
    the string and swapped when out of order. *)
Definition substring (from to : Z) (s : string) : string :=
  let len := Z.of_nat (String.length s) in
  let a := Z.min (Z.max from 0) len in
  let b := Z.min (Z.max to 0) len in
  takeChars (Z.to_nat (Z.max a b - Z.min a b)) (dropChars (Z.to_nat (Z.min a b)) s).

(** [truncateText(text, maxLength)]. *)
Definition truncateText (text : string) (maxLength : Z) : string :=
  if (Z.of_nat (String.length text) <=? maxLength)%Z then text
  else substring 0 (maxLength - 3) text +:+ "...".

(** *** The logger's threshold ([utils/index.ts]) *)





(** *** Retry with back-off ([utils/index.ts]) *)

(** [err instanceof Error ? err : new Error(String(err))]. *)
Definition asError (err : Thrown) : Thrown :=
  match err with
  | ErrorObj message => ErrorObj message
  | NonError _ => ErrorObj (errorText err)
  end.

Section Retry.

Variable World : Type.
Variable A : Type.

(** The operation retried, and [sleep(ms)]. *)
Variable fn : World -> World * (Thrown + A).
Variable sleep : Z -> World -> World.

(** The [for] loop of [withRetry] with [remaining] iterations to go, at
    index [attempt].  Falling out of the loop throws [lastError], which is
    [undefined] if no attempt was made. *)
Fixpoint retryLoop (remaining : nat) (attempt maxRetries initialDelay : Z)
    (lastError : option Thrown) (w : World) : World * (Thrown + A) :=
  match remaining with
  | 0 =>
      (w, inl match lastError with
              | Some err => err
              | None => NonError None
              end)
  | S remaining' =>
      match fn w with
      | (w', inr value) => (w', inr value)
      | (w', inl err) =>
          let lastError := asError err in
          let w'' :=
            if (attempt <? maxRetries)%Z
            then sleep (initialDelay * 2 ^ attempt)%Z w'
            else w' in
          retryLoop remaining' (attempt + 1)%Z maxRetries initialDelay
            (Some lastError) w''
      end
  end.

(** [withRetry(fn, maxRetries, initialDelay)]: the loop runs for
    [attempt = 0 .. maxRetries]. *)
Definition withRetry (maxRetries initialDelay : Z) (w : World)
  : World * (Thrown + A) :=
  retryLoop (Z.to_nat (maxRetries + 1)) 0 maxRetries initialDelay None w.

(** The defaults of the signature: [maxRetries = 3], [initialDelay = 1000]. *)
Definition withRetry_default (w : World) : World * (Thrown + A) :=
  withRetry 3 1000 w.

End Retry.

Arguments retryLoop {World A} fn sleep remaining attempt maxRetries
  initialDelay lastError w.
Arguments withRetry {World A} fn sleep maxRetries initialDelay w.
Arguments withRetry_default {World A} fn sleep w.

(** What an observer of [withRetry] sees: each call of the operation with
    the value it threw, if any, and each sleep with its delay. *)
Inductive RetryEvent : Type :=
  | Attempt (failure : option Thrown)
  | Slept (ms : Z).

(** The operation and [sleep], made to note what they do. *)
Definition notingFn {World A : Type} (fn : World -> World * (Thrown + A))
    (p : World * list RetryEvent) : (World * list RetryEvent) * (Thrown + A) :=
  match fn p.1 with
  | (w', inr value) => ((w', (p.2 ++ [Attempt None])%list), inr value)
  | (w', inl err) => ((w', (p.2 ++ [Attempt (Some err)])%list), inl err)
  end.

Definition notingSleep {World : Type} (sleep : Z -> World -> World)
    (ms : Z) (p : World * list RetryEvent) : World * list RetryEvent :=
  (sleep ms p.1, (p.2 ++ [Slept ms])%list).

(** The events of attempts that throw [errs] one after the other, from
    index [attempt] on: a sleep of [initialDelay * 2 ^ attempt] follows each
    failure whose index is below [maxRetries]. *)
Fixpoint failures (errs : list Thrown) (attempt maxRetries initialDelay : Z)
  : list RetryEvent :=
  match errs with
  | [] => []
  | err :: rest =>
      (Attempt (Some err)
       :: (if (attempt <? maxRetries)%Z
           then [Slept (initialDelay * 2 ^ attempt)%Z]
           else [])
       ++ failures rest (attempt + 1)%Z maxRetries initialDelay)%list
  end.

(** *** Configuration fields and the cached configuration ([config/index.ts]) *)

(** A field [z.enum(values).default(dflt)]: [None] is the [ZodError]. *)
Definition enumField (values : list string) (dflt : string)
    (raw : option string) : option string :=
  match raw with
  | None => Some dflt
  | Some value =>
      if existsb (String.eqb value) values then Some value else None
  end.

Definition llmProviderField : option string -> option string :=
  enumField ["bedrock"; "openai"; "anthropic"] "bedrock".

Definition checkpointerTypeField : option string -> option string :=
  enumField ["memory"; "postgres"; "redis"] "memory".

Definition nodeEnvField : option string -> option string :=
  enumField ["development"; "test"; "production"] "development".

Definition logLevelField : option string -> option string :=
  enumField ["debug"; "info"; "warn"; "error"] "info".

(** A field [z.coerce.boolean().default(false)] read from an environment
    variable: a value that is present goes through [Boolean(value)]. *)
Definition booleanField (raw : option string) : bool :=
  match raw with
  | None => false
  | Some value => truthy (Some (JStr value))
  end.

(** [getConfig()] over the module variable [_cachedConfig]: the new value
    of the variable and the result, [None] being the [ZodError] thrown by
    [ConfigSchema.parse]. *)
Definition getConfig (env : Env) (_cachedConfig : option Config)
  : option Config * option Config :=
  match _cachedConfig with
  | Some cached => (Some cached, Some cached)
  | None =>
      match ConfigSchema_parse env with
      | Some parsed => (Some parsed, Some parsed)
      | None => (None, None)
      end
  end.

(** [resetConfig()]. *)
Definition resetConfig (_cachedConfig : option Config) : option Config := None.

(** The fields [validateLlmConfig] reads. *)
Record LlmConfig : Type := mkLlmConfig {
  llmProvider : string;
  openaiApiKey : option string;
  anthropicApiKey : option string;
}.

(** [validateLlmConfig()]: the error it throws, if any. *)
Definition validateLlmConfig (config : LlmConfig) : option Thrown :=
  if String.eqb (llmProvider config) "bedrock" then None
  else if String.eqb (llmProvider config) "openai" then
    if negb (truthy (JStr <$> openaiApiKey config))
    then Some (ErrorObj "OPENAI_API_KEY is required when LLM_PROVIDER=openai")
    else None
  else if String.eqb (llmProvider config) "anthropic" then
    if negb (truthy (JStr <$> anthropicApiKey config))
    then Some (ErrorObj
                 "ANTHROPIC_API_KEY is required when LLM_PROVIDER=anthropic")
    else None
  else None.

(** *** Checkpointers ([checkpointers/index.ts]) *)

(** [getCheckpointer()] on [checkpointerType]: a new, empty [MemorySaver],
    or the error thrown for a saver that is not set up. *)
Definition getCheckpointer (checkpointerType : string)
  : Thrown + gmap string AgentState :=
  if String.eqb checkpointerType "memory" then inr ∅
  else if String.eqb checkpointerType "postgres" then
    inl (ErrorObj
           "PostgresSaver not configured. Uncomment the import and setup in checkpointers/index.ts")
  else if String.eqb checkpointerType "redis" then
    inl (ErrorObj
           "RedisSaver not configured. Uncomment the import and setup in checkpointers/index.ts")
  else inr ∅.

(** A [ThreadConfig]: [{ configurable: { thread_id, ... } }]. *)
Record ThreadConfig : Type := mkThreadConfig {
  configurable : gmap string json;
}.

(** [createThreadConfig(threadId, additionalConfig)]: the additional
    properties are spread after [thread_id]. *)
Definition createThreadConfig (threadId : string)
    (additionalConfig : option (gmap string json)) : ThreadConfig :=
  {| configurable :=
       default ∅ additionalConfig ∪ {[ "thread_id" := JStr threadId ]} |}.

(** A [RunnableConfig], as far as the spread [{ ...threadConfig, ...config }]
    of the entry points goes: its own [configurable], if it has one. *)
Record RunnableConfig : Type := mkRunnableConfig {
  rc_configurable : option (gmap string json);
}.

(** The [configurable] of [{ ...threadConfig, ...config }]. *)
Definition invokeConfigurable (threadConfig : ThreadConfig)
    (config : option RunnableConfig) : gmap string json :=
  match config ≫= rc_configurable with
  | Some own => own
  | None => configurable threadConfig
  end.


(** *** Tracing set-up ([instrumentation/arize.ts]) *)

(** The tracer provider built by [initArizeTracing]: the resource's
    [project_name] and the exporter's [space_id] and [api_key]. *)
Record TracerProvider : Type := mkTracerProvider {
  project_name : string;
  space_id : string;
  api_key : string;
}.

(** The module variables [_initialized] and [_provider]. *)
Record ArizeModule : Type := mkArizeModule {
  _initialized : bool;
  _provider : option TracerProvider;
}.

Record ArizeOptions : Type := mkArizeOptions {
  ao_spaceId : option string;
  ao_apiKey : option string;
  ao_projectName : option string;
  ao_debug : bool;
}.

Record ArizeEnv : Type := mkArizeEnv {
  ARIZE_SPACE_ID : option string;
  ARIZE_API_KEY : option string;
  ARIZE_PROJECT_NAME : option string;
}.

(** [a ?? b]. *)
Definition nullish {A : Type} (a b : option A) : option A :=
  match a with
  | Some value => Some value
  | None => b
  end.

Section Tracing.

Variable World : Type.

(** [diag.setLogger(...)], the instrumentation of LangChain followed by
    [_provider.register()], and the provider's [forceFlush()] and
    [shutdown()], either of which may throw. *)
Variable setDebugLogger : World -> World.
Variable instrumentAndRegister : TracerProvider -> World -> World.
Variable forceFlush : TracerProvider -> World -> World * option Thrown.
Variable shutdown : TracerProvider -> World -> World * option Thrown.

(** [initArizeTracing(options)]. *)
Definition initArizeTracing (options : option ArizeOptions) (env : ArizeEnv)
    (m : ArizeModule) (w : World) : ArizeModule * World :=
  if _initialized m then (m, w)
  else
    let spaceId := nullish (options ≫= ao_spaceId) (ARIZE_SPACE_ID env) in
    let apiKey := nullish (options ≫= ao_apiKey) (ARIZE_API_KEY env) in
    let projectName :=
      default "opensearch-rag-agent"
        (nullish (options ≫= ao_projectName) (ARIZE_PROJECT_NAME env)) in
    match spaceId, apiKey with
    | Some spaceId, Some apiKey =>
        if negb (truthy (Some (JStr spaceId)))
           || negb (truthy (Some (JStr apiKey)))
        then (m, w)
        else
          let w1 :=
            if default false (ao_debug <$> options)
            then setDebugLogger w else w in
          let provider :=
            {| project_name := projectName;
               space_id := spaceId;
               api_key := apiKey |} in
          ({| _initialized := true; _provider := Some provider |},
           instrumentAndRegister provider w1)
    | _, _ => (m, w)
    end.

(** [shutdownArizeTracing()]: the [catch] logs the error and the function
    returns; the module variables are left as they are. *)
Definition shutdownArizeTracing (m : ArizeModule) (w : World) : World :=
  match _provider m with
  | None => w
  | Some provider =>
      match forceFlush provider w with
      | (w1, Some _) => w1
      | (w1, None) => (shutdown provider w1).1
      end
  end.

(** The start-up block of [agents/rag-agent.ts]:
    [if (_config.arizeEnabled) initArizeTracing({ spaceId, apiKey,
    projectName })], the three taken from the configuration, whose
    [arizeProjectName] has a default. *)
Definition autoInitTracing (ARIZE_ENABLED : option string) (env : ArizeEnv)
    (m : ArizeModule) (w : World) : ArizeModule * World :=
  if booleanField ARIZE_ENABLED then
    initArizeTracing
      (Some {| ao_spaceId := ARIZE_SPACE_ID env;
               ao_apiKey := ARIZE_API_KEY env;
               ao_projectName :=
                 Some (default "openbook-rag-agent" (ARIZE_PROJECT_NAME env));
               ao_debug := false |})
      env m w
  else (m, w).

End Tracing.

Arguments initArizeTracing {World} setDebugLogger instrumentAndRegister
  options env m w.
Arguments shutdownArizeTracing {World} forceFlush shutdown m w.
Arguments autoInitTracing {World} setDebugLogger instrumentAndRegister
  ARIZE_ENABLED env m w.

(** *** Counting model calls *)

(** A model and a knowledge base that keep, beside the world, the number
    of times the model was called. *)
Definition countingModel {World : Type}
    (generate : list Message -> World -> World * (Thrown + ModelReply))
    (history : list Message) (p : World * nat)
  : (World * nat) * (Thrown + ModelReply) :=
  let '(w', reply) := generate history p.1 in ((w', S p.2), reply).

Definition besideCount {World : Type}
    (send : RetrieveCommand -> World -> World * (Thrown + RetrieveResponse))
    (command : RetrieveCommand) (p : World * nat)
  : (World * nat) * (Thrown + RetrieveResponse) :=
  let '(w', response) := send command p.1 in ((w', p.2), response).

(** The calls a run can still make to the model from [node], with
    [iterations] agent steps behind it. *)
Definition callsLeft (node : Node) (iterations : nat) : nat :=
  match node with
  | END => 0
  | _ => Nat.max 1 (10 - iterations)%nat
  end.


(** *** The thinking pass of the chat route ([server.ts]) *)

Definition THINKING_OPEN : string := "<thinking>".
Definition THINKING_CLOSE : string := "</thinking>".

(** What follows [prefix] in [s], if [s] starts with it. *)
Fixpoint startsWith (prefix s : string) : option string :=
  match prefix, s with
  | EmptyString, _ => Some s
  | String a prefix', String b s' =>
      if Ascii.eqb a b then startsWith prefix' s' else None
  | String _ _, EmptyString => None
  end.

(** The text before and the text after the first occurrence of [needle]. *)
Fixpoint cut (needle hay : string) : option (string * string) :=
  match startsWith needle hay with
  | Some rest => Some ("", rest)
  | None =>
      match hay with
      | EmptyString => None
      | String c tail =>
          match cut needle tail with
          | Some (before, after) => Some (String c before, after)
          | None => None
          end
      end
  end.

(** The matches of [/<thinking>([\s\S]*?)<\/thinking>/g] in [raw], from
    left to right: the captured bodies, and [raw] with the matches taken
    out.  Both the [exec] loop and the [replace] of the route go by this
    one pattern.  A match starts at the first opening tag and ends at the
    first closing tag after it; an opening tag with no closing tag after it
    ends the search. *)
Fixpoint thinkingScan (fuel : nat) (raw : string) : list string * string :=
  match fuel with
  | 0 => ([], raw)
  | S fuel' =>
      match cut THINKING_OPEN raw with
      | None => ([], raw)
      | Some (before, inside) =>
          match cut THINKING_CLOSE inside with
          | None => ([], raw)
          | Some (thought, rest) =>
              let '(thoughts, text) := thinkingScan fuel' rest in
              (thought :: thoughts, before +:+ text)
          end
      end
  end.

(** [thinkingMatches] after the [while] loop, and
    [rawResponse.replace(/<thinking>[\s\S]*?<\/thinking>/g, "")]. *)
Definition thinkingBodies (raw : string) : list string :=
  (thinkingScan (String.length raw) raw).1.

Definition withoutThinking (raw : string) : string :=
  (thinkingScan (String.length raw) raw).2.

(** [needle] occurs in [s]. *)
Definition occursIn (needle s : string) : Prop :=
  exists before after, s = before +:+ needle +:+ after.

(** *** Concrete operations for the examples *)

Module Trial.

(** An operation that is busy twice and then succeeds; the world counts
    its calls. *)
Definition busyTwice (calls : nat) : nat * (Thrown + string) :=
  if (calls <? 2)%nat
  then (S calls, inl (NonError (Some (JStr "busy"))))
  else (S calls, inr "done").

(** An operation that always throws the number 503. *)
Definition unavailable (calls : nat) : nat * (Thrown + string) :=
  (S calls, inl (NonError (Some (JNum 503)))).

Definition noWait (ms : Z) (calls : nat) : nat := calls.

(** A tracing back end that notes what is asked of it. *)
Definition setDebugLogger (w : list string) : list string :=
  (w ++ ["debug logger"])%list.

Definition instrumentAndRegister (provider : TracerProvider)
    (w : list string) : list string :=
  (w ++ ["register " +:+ project_name provider])%list.

Definition forceFlush (provider : TracerProvider) (w : list string)
  : list string * option Thrown :=
  ((w ++ ["flush"])%list, None).

Definition shutdown (provider : TracerProvider) (w : list string)
  : list string * option Thrown :=
  ((w ++ ["shutdown"])%list, None).

Definition credentials : ArizeEnv :=
  {| ARIZE_SPACE_ID := Some "space-1";
     ARIZE_API_KEY := Some "key-1";
     ARIZE_PROJECT_NAME := None |}.

Definition fresh : ArizeModule :=
  {| _initialized := false; _provider := None |}.

End Trial.

(** ** Specification predicates *)

(** The last message is an ai message with a non-empty tool-call list. *)
Definition pendingToolCalls (state : AgentState) : Prop :=
  exists c call rest,
    lastOf (messages state) = Some (AIMessage c (Some (call :: rest))).

(** A content block [{ type: "text", text }]. *)
Definition textBlock (text : string) : json :=
  JObj [("type", JStr "text"); ("text", JStr text)].

(** The ranks [1..n] as they appear in a payload. *)
Definition ranksUpTo (n : nat) : list (option json) :=
  map (fun k => Some (JNum (Z.of_nat k))) (seq 1 n).


(** The value read as the query is empty or is not a string. *)
Definition emptyOrNonString (message : option json) : Prop :=
  forall text, message = Some (JStr text) -> text = "".


(** The transitions a run still needs, at most, from [node] with
    [iterations] agent steps behind it. *)
Definition transitionsLeft (node : Node) (iterations : nat) : nat :=
  match node with
  | END => 0
  | AGENT => 2 * (9 - iterations) + 1
  | START | TOOLS => 2 * (9 - iterations) + 2
  end.

(** The bound on [iterations] at the end of a run that stands at [node]. *)
Definition iterationsCap (node : Node) (state : AgentState) : nat :=
  match node with
  | END => iterations state
  | _ => Nat.max 10 (iterations state + 1)
  end.

(** [tool_call_id] of a tool message. *)
Definition toolCallIdOf (m : Message) : option string :=
  match m with
  | ToolMessage _ id => Some id
  | _ => None
  end.

(** * Properties *)

Open Scope nat_scope.
Open Scope list_scope.

(** ** The router *)

Lemma lastOf_snoc {A : Type} (l : list A) (x : A) : lastOf (l ++ [x]) = Some x.
Proof. unfold lastOf. apply last_snoc. Qed.

Lemma route_tools_pending (state : AgentState) :
  routeAgentResponse state = tools ->
  iterations state < 10 /\ pendingToolCalls state.
Proof.
  unfold routeAgentResponse, pendingToolCalls.
  destruct (10 <=? iterations state) eqn:Hcap; [discriminate|].
  apply Nat.leb_gt in Hcap.
  destruct (lastOf (messages state)) as [m|]; [|discriminate].
  destruct m as [c|c calls|c|c id]; simpl; try discriminate.
  destruct calls as [[|call rest]|]; simpl; try discriminate.
  intros _. split; [lia|]. by exists c, call, rest.
Qed.



(** At the cap, tool calls that are still pending are left unexecuted. *)
Example router_cap_with_pending_calls :
  routeAgentResponse
    {| messages := [HumanMessage (JStr "q");
                    AIMessage (JStr "") (Some [Scenario.budgetCall])];
       currentStep := "agent"; error := None; iterations := 10 |} = __end__
  /\ routeAgentResponse
    {| messages := [HumanMessage (JStr "q");
                    AIMessage (JStr "") (Some [Scenario.budgetCall])];
       currentStep := "agent"; error := None; iterations := 9 |} = tools.
Proof. split; reflexivity. Qed.

(** ** The messages reducer *)

(** C4: an update that carries new messages leaves the existing history in
    place as a prefix, neither dropping, repeating nor moving any of it,
    and puts the new messages after it in the order they came in. *)
Theorem messages_append_only
    (state : AgentState) (update : AgentStateUpdate) (new : list Message) :
  set_messages update = Some new ->
  let merged := messages (applyUpdate state update) in
  merged = messages state ++ new /\
  length merged = length (messages state) + length new /\
  (forall i m, messages state !! i = Some m -> merged !! i = Some m) /\
  (forall i, merged !! (length (messages state) + i) = new !! i).
Proof.
  intros Hnew merged. subst merged. unfold applyUpdate; simpl.
  rewrite Hnew. unfold messagesStateReducer.
  repeat split.
  - apply length_app.
  - intros i m Hi. by apply lookup_app_l_Some.
  - intros i. rewrite lookup_app_r by lia. f_equal. lia.
Qed.

Lemma messages_append_only_witness :
  set_messages (userInput "and next year?") = Some [HumanMessage (JStr "and next year?")]
  /\ messages
       (applyUpdate
          {| messages := [HumanMessage (JStr "q"); AIMessage (JStr "a") None];
             currentStep := "agent"; error := None; iterations := 1 |}
          (userInput "and next year?"))
     = [HumanMessage (JStr "q"); AIMessage (JStr "a") None;
        HumanMessage (JStr "and next year?")].
Proof.
  split; [reflexivity|].
  exact (proj1 (messages_append_only
                  {| messages := [HumanMessage (JStr "q"); AIMessage (JStr "a") None];
                     currentStep := "agent"; error := None; iterations := 1 |}
                  (userInput "and next year?")
                  [HumanMessage (JStr "and next year?")] eq_refl)).
Defined.

(** ** The retrieval tool *)

Lemma rankedChunks_lookup (results : list string) (i : nat) :
  rankedChunks results !! i =
  (fun text => JObj [("rank", JNum (Z.of_nat i + 1)); ("text", JStr text)])
    <$> results !! i.
Proof. unfold rankedChunks. by rewrite list_lookup_imap. Qed.

Lemma rankedChunks_length (results : list string) :
  length (rankedChunks results) = length results.
Proof. unfold rankedChunks. apply length_imap. Qed.

Lemma rankedChunks_ranks (results : list string) :
  map (prop "rank") (rankedChunks results) = ranksUpTo (length results).
Proof.
  apply list_eq. intros i. unfold ranksUpTo.
  rewrite !list_lookup_fmap, rankedChunks_lookup.
  destruct (results !! i) as [text|] eqn:Hi; simpl.
  - apply lookup_lt_Some in Hi.
    rewrite lookup_seq_lt by lia.
    simpl. do 3 f_equal. lia.
  - apply lookup_ge_None in Hi.
    by rewrite lookup_seq_ge by lia.
Qed.

Lemma rankedChunks_texts (results : list string) :
  map (prop "text") (rankedChunks results)
  = map (fun text => Some (JStr text)) results.
Proof.
  apply list_eq. intros i.
  rewrite !list_lookup_fmap, rankedChunks_lookup.
  by destruct (results !! i).
Qed.

(** The usable texts are the non-empty texts of the response, kept in the
    order the retrieval returned them. *)
Lemma usableTexts_spec (response : RetrieveResponse) :
  sublist (usableTexts response)
    (map (fun r => default "" (result_text r))
       (default [] (retrievalResults response)))
  /\ forall text,
       text ∈ usableTexts response <->
       text <> ""%string /\
       text ∈ map (fun r => default "" (result_text r))
                (default [] (retrievalResults response)).
Proof.
  unfold usableTexts.
  set (texts := map _ _). clearbody texts. split.
  - induction texts as [|t ts IH]; simpl; [constructor|].
    destruct (0 <? String.length t); by constructor.
  - intros text. rewrite !list_elem_of_In, filter_In.
    split.
    + intros [Hin Hlen]. split; [|done].
      intros ->. discriminate.
    + intros [Hne Hin]. split; [done|].
      destruct text; [done|reflexivity].
Qed.

Section ToolProperties.

Variable World : Type.
Variable send : RetrieveCommand -> World -> World * (Thrown + RetrieveResponse).
Variable toolFailureContent : ToolCall -> string.
Variable config : Config.

(** C7, as the code has it: when the retrieval succeeds with at least one
    usable chunk the payload is tagged [success] and its chunks carry the
    ranks 1..n, n the number of usable chunks and rank i on the i-th usable
    text in retrieval order; with no usable chunk the payload is tagged
    [no_results]. *)
Theorem retrieval_success_ranks
    (input : KBInput) (w w' : World) (response : RetrieveResponse) :
  send (retrieveCommand config input) w = (w', inr response) ->
  let results := usableTexts response in
  (results <> [] ->
     kbRetrievalTool send config input w
       = (w', stringify (successPayload input results)) /\
     prop "status" (successPayload input results) = Some (JStr "success") /\
     exists chunks,
       prop "chunks" (successPayload input results) = Some (JArr chunks) /\
       map (prop "rank") chunks = ranksUpTo (length results) /\
       map (prop "text") chunks = map (fun text => Some (JStr text)) results)
  /\
  (results = [] ->
     kbRetrievalTool send config input w
       = (w', stringify (noResultsPayload input)) /\
     prop "status" (noResultsPayload input) = Some (JStr "no_results")).
Proof.
  intros Hsend results. unfold kbRetrievalTool. rewrite Hsend.
  fold results. split.
  - intros Hne. destruct results as [|r rs] eqn:Hres; [done|].
    simpl length. simpl Nat.eqb. cbv iota.
    repeat split.
    exists (rankedChunks (r :: rs)). repeat split.
    + apply rankedChunks_ranks.
    + apply rankedChunks_texts.
  - intros ->. by split.
Qed.

(** C8, as the code has it: without [topK] the retrieval is asked for the
    configured [retrievalTopK] results, which is 5 when [RETRIEVAL_TOP_K] is
    not set and the value of that variable otherwise; with [topK] it is asked
    for that many. *)
Theorem retrieval_topK_configured (env : Env) (input : KBInput) (w : World) :
  ConfigSchema_parse env = Some config ->
  let n := cmd_numberOfResults (retrieveCommand config input) in
  (topK input = None -> n = retrievalTopK config) /\
  (topK input = None -> RETRIEVAL_TOP_K env = None -> n = 5%Z) /\
  (topK input = None -> forall k, RETRIEVAL_TOP_K env = Some k -> n = k) /\
  (forall k, topK input = Some k -> n = k) /\
  fst (kbRetrievalTool send config input w)
  = fst (send {| cmd_knowledgeBaseId := knowledgeBaseId config;
                 cmd_text := query input;
                 cmd_numberOfResults := n |} w).
Proof.
  intros Henv n. subst n. simpl. unfold numberOfResults.
  assert (Hcfg : (RETRIEVAL_TOP_K env = None -> retrievalTopK config = 5%Z) /\
                 (forall k, RETRIEVAL_TOP_K env = Some k -> retrievalTopK config = k)).
  { unfold ConfigSchema_parse in Henv.
    destruct (KNOWLEDGE_BASE_ID env) as [kb|]; [|discriminate].
    destruct (String.length kb <? 1); [discriminate|].
    destruct (RETRIEVAL_TOP_K env) as [k|].
    - destruct (0 <? k)%Z; [|discriminate].
      injection Henv as <-. split; [discriminate|]. by intros ? [= ->].
    - injection Henv as <-. split; [done|discriminate]. }
  destruct Hcfg as [Hdefault Hset].
  repeat split.
  - by intros ->.
  - intros -> Hnone. by apply Hdefault.
  - intros -> k Hk. by apply Hset.
  - by intros k ->.
  - unfold kbRetrievalTool, retrieveCommand, numberOfResults.
    destruct (send _ w) as [w1 [error|response]]; simpl; [done|].
    by destruct (length (usableTexts response) =? 0).
Qed.



End ToolProperties.

Lemma retrieval_success_ranks_witness :
  Scenario.sendThree (retrieveCommand Scenario.config Scenario.budgetInput)
    Scenario.w0
  = (Scenario.noteCommand
       (retrieveCommand Scenario.config Scenario.budgetInput) Scenario.w0,
     inr Scenario.threePassages)
  /\ usableTexts Scenario.threePassages = ["Revenue"; "Spending"; "Debt"]%string
  /\ kbRetrievalTool Scenario.sendThree Scenario.config Scenario.budgetInput
       Scenario.w0
     = (Scenario.noteCommand
          (retrieveCommand Scenario.config Scenario.budgetInput) Scenario.w0,
        stringify
          (JObj [("status", JStr "success");
                 ("totalResults", JNum 3);
                 ("query", JStr "total budget");
                 ("chunks",
                  JArr [JObj [("rank", JNum 1); ("text", JStr "Revenue")];
                        JObj [("rank", JNum 2); ("text", JStr "Spending")];
                        JObj [("rank", JNum 3); ("text", JStr "Debt")]])])).
Proof.
  split; [reflexivity|]. split; [reflexivity|].
  refine (proj1 (proj1 (retrieval_success_ranks Scenario.World
                          Scenario.sendThree Scenario.config
                          Scenario.budgetInput Scenario.w0 _
                          Scenario.threePassages eq_refl) _)).
  discriminate.
Defined.

Lemma retrieval_topK_configured_witness :
  ConfigSchema_parse {| KNOWLEDGE_BASE_ID := Some "KB1"%string;
                        RETRIEVAL_TOP_K := None |}
  = Some Scenario.config
  /\ cmd_numberOfResults (retrieveCommand Scenario.config Scenario.budgetInput)
     = 5%Z.
Proof.
  split; [reflexivity|].
  refine (proj1 (proj2 (retrieval_topK_configured Scenario.World
                          Scenario.sendThree Scenario.config
                          {| KNOWLEDGE_BASE_ID := Some "KB1"%string;
                             RETRIEVAL_TOP_K := None |}
                          Scenario.budgetInput Scenario.w0 eq_refl))
            eq_refl eq_refl).
Defined.

(** C8 as stated fails: with [RETRIEVAL_TOP_K=8] in the environment, a call
    whose arguments leave [topK] out reaches the knowledge base with
    [numberOfResults] 8, not 5. *)
Lemma omitted_topK_follows_configuration :
  ConfigSchema_parse {| KNOWLEDGE_BASE_ID := Some "KB1"%string;
                        RETRIEVAL_TOP_K := Some 8%Z |}
  = Some Scenario.config8
  /\ kbRetrievalTool_schema (call_args Scenario.budgetCall)
     = Some Scenario.budgetInput
  /\ topK Scenario.budgetInput = None
  /\ Scenario.commands
       (fst (kbRetrievalTool Scenario.sendThree Scenario.config8
               Scenario.budgetInput Scenario.w0))
     = [ {| cmd_knowledgeBaseId := "KB1";
            cmd_text := "total budget";
            cmd_numberOfResults := 8 |} ]
  /\ 8%Z <> 5%Z.
Proof. repeat split; discriminate. Qed.

(** ** The steps of the loop *)

Section LoopProperties.

Variable World : Type.
Variable generate : list Message -> World -> World * (Thrown + ModelReply).
Variable send : RetrieveCommand -> World -> World * (Thrown + RetrieveResponse).
Variable generateThreadId : World -> World * string.
Variable toolFailureContent : ToolCall -> string.
Variable thinkingMatches : string -> list string.
Variable stripThinking : string -> string.
Variable config : Config.

Local Abbreviation step := (transition generate send toolFailureContent config).
Local Abbreviation runGraph := (run generate send toolFailureContent config).
Local Abbreviation invokeGraph :=
  (invoke generate send toolFailureContent config).
Local Abbreviation reach := (reaches generate send toolFailureContent config).

(** C9: the model is called on the system prompt followed by the whole
    history; the update holds the one ai message it returned, sets
    [currentStep] to agent and [iterations] to one more than before, so the
    new history is the old one plus that message, and the system prompt is
    in it only if it already was. *)
Theorem agent_step_update
    (state : AgentState) (w w' : World) (reply : ModelReply) :
  generate (SystemMessage (JStr SYSTEM_PROMPT) :: messages state) w
  = (w', inr reply) ->
  let response := AIMessage (reply_content reply) (reply_tool_calls reply) in
  let update := {| set_messages := Some [response];
                   set_currentStep := Some "agent"%string;
                   set_error := None;
                   set_iterations := Some (iterations state + 1) |} in
  agentNode generate state w = (w', inr update) /\
  messages (applyUpdate state update) = messages state ++ [response] /\
  currentStep (applyUpdate state update) = "agent"%string /\
  iterations (applyUpdate state update) = iterations state + 1 /\
  error (applyUpdate state update) = error state /\
  (forall c, SystemMessage c ∈ messages (applyUpdate state update) ->
             SystemMessage c ∈ messages state).
Proof.
  intros Hgen response update. unfold agentNode. rewrite Hgen.
  repeat split.
  intros c Hin. simpl in Hin. unfold messagesStateReducer in Hin.
  apply elem_of_app in Hin as [Hin|Hin]; [done|].
  apply list_elem_of_singleton in Hin. discriminate.
Qed.



(** *** Runs *)

Lemma run_END (fuel : nat) (thread : string)
    (saved : gmap string AgentState) (state : AgentState) (w : World) :
  runGraph fuel END thread saved state w = (w, saved, inr state).
Proof. by destruct fuel. Qed.

Lemma run_unfold (fuel : nat) (node : Node) (thread : string)
    (saved : gmap string AgentState) (state : AgentState) (w : World) :
  node <> END ->
  runGraph (S fuel) node thread saved state w
  = match step node state w with
    | (w', inl thrown) => (w', saved, inl (NodeError thrown))
    | (w', inr (node', state')) =>
        runGraph fuel node' thread (<[thread := state']> saved) state' w'
    end.
Proof. by destruct node. Qed.

Lemma run_next (fuel : nat) (node : Node) (thread : string)
    (saved : gmap string AgentState) (state : AgentState) (w w1 : World)
    (node1 : Node) (state1 : AgentState) :
  node <> END ->
  step node state w = (w1, inr (node1, state1)) ->
  runGraph (S fuel) node thread saved state w
  = runGraph fuel node1 thread (<[thread := state1]> saved) state1 w1.
Proof. intros Hnode Hstep. by rewrite run_unfold, Hstep. Qed.

Lemma run_throws (fuel : nat) (node : Node) (thread : string)
    (saved : gmap string AgentState) (state : AgentState) (w w1 : World)
    (thrown : Thrown) :
  node <> END ->
  step node state w = (w1, inl thrown) ->
  runGraph (S fuel) node thread saved state w
  = (w1, saved, inl (NodeError thrown)).
Proof. intros Hnode Hstep. by rewrite run_unfold, Hstep. Qed.

Lemma run_out_of_steps (node : Node) (thread : string)
    (saved : gmap string AgentState) (state : AgentState) (w : World) :
  node <> END ->
  runGraph 0 node thread saved state w = (w, saved, inl GraphRecursionError).
Proof. by destruct node. Qed.

(** What one completed transition does to the node and the counter. *)
Lemma step_shape (node : Node) (state : AgentState) (w w1 : World)
    (node1 : Node) (state1 : AgentState) :
  step node state w = (w1, inr (node1, state1)) ->
  match node with
  | START => node1 = AGENT /\ state1 = state
  | AGENT =>
      iterations state1 = iterations state + 1 /\
      (exists c calls, lastOf (messages state1) = Some (AIMessage c calls)) /\
      (node1 = END \/ node1 = TOOLS /\ iterations state1 < 10)
  | TOOLS => node1 = AGENT /\ iterations state1 = iterations state
  | END => node1 = END /\ state1 = state
  end.
Proof.
  destruct node; simpl.
  - by intros [= <- <- <-].
  - unfold agentNode.
    destruct (generate _ w) as [w2 [thrown|reply]]; [discriminate|].
    intros [= <- <- <-]. split; [reflexivity|]. split.
    + simpl. unfold messagesStateReducer. rewrite lastOf_snoc. by eexists _, _.
    + match goal with |- context [routeAgentResponse ?s] =>
        destruct (routeAgentResponse s) eqn:Hroute end; simpl; [|by left].
      right. split; [done|]. by apply route_tools_pending in Hroute as [? _].
  - unfold toolNode.
    destruct (lastOf (messages state)) as [[c|c calls|c|c id]|];
      try discriminate.
    destruct (runTools _ _ _ _ w) as [w2 outputs].
    by intros [= <- <- <-].
  - by intros [= <- <- <-].
Qed.

(** The counter at the end of a run stays under the cap of where the run
    stands. *)
Lemma run_iterations_cap (fuel : nat) :
  forall (node : Node) (thread : string) (saved saved' : gmap string AgentState)
         (state final : AgentState) (w w' : World),
    runGraph fuel node thread saved state w = (w', saved', inr final) ->
    iterations final <= iterationsCap node state.
Proof.
  induction fuel as [|fuel IH]; intros node thread saved saved' state final w w'.
  - destruct node; simpl; try discriminate. by intros [= _ _ ->].
  - destruct (decide (node = END)) as [->|Hnode].
    + rewrite run_END. by intros [= _ _ ->].
    + rewrite run_unfold by done.
      destruct (step node state w) as [w1 [thrown|[node1 state1]]] eqn:Hstep;
        [discriminate|].
      intros Hrun. apply IH in Hrun. apply step_shape in Hstep.
      destruct node; try done; simpl in *.
      * destruct Hstep as [-> ->]. simpl in Hrun. lia.
      * destruct Hstep as (Hit & _ & [->|[-> Hlt]]); simpl in Hrun; lia.
      * destruct Hstep as [-> Hit]. simpl in Hrun. lia.
Qed.

(** With the transitions it still needs, a run never stops at the
    recursion limit. *)
Lemma run_enough_fuel (fuel : nat) :
  forall (node : Node) (thread : string) (saved saved' : gmap string AgentState)
         (state : AgentState) (w w' : World),
    transitionsLeft node (iterations state) <= fuel ->
    runGraph fuel node thread saved state w
    <> (w', saved', inl GraphRecursionError).
Proof.
  induction fuel as [|fuel IH]; intros node thread saved saved' state w w' Hleft.
  - destruct node; simpl in Hleft; try lia. by rewrite run_END.
  - destruct (decide (node = END)) as [->|Hnode]; [by rewrite run_END|].
    rewrite run_unfold by done.
    destruct (step node state w) as [w1 [thrown|[node1 state1]]] eqn:Hstep;
      [discriminate|].
    apply IH. apply step_shape in Hstep.
    destruct node; try done; simpl in *.
    + destruct Hstep as [-> ->]. simpl. lia.
    + destruct Hstep as (Hit & _ & [->|[-> Hlt]]); simpl; lia.
    + destruct Hstep as [-> Hit]. simpl. lia.
Qed.

(** A run that ends holds its final state in the thread's checkpoint. *)
Lemma run_saves_final (fuel : nat) :
  forall (node : Node) (thread : string) (saved saved' : gmap string AgentState)
         (state final : AgentState) (w w' : World),
    saved !! thread = Some state ->
    runGraph fuel node thread saved state w = (w', saved', inr final) ->
    saved' !! thread = Some final.
Proof.
  induction fuel as [|fuel IH];
    intros node thread saved saved' state final w w' Hsaved.
  - destruct node; simpl; try discriminate. by intros [= _ <- <-].
  - destruct (decide (node = END)) as [->|Hnode].
    + rewrite run_END. by intros [= _ <- <-].
    + rewrite run_unfold by done.
      destruct (step node state w) as [w1 [thrown|[node1 state1]]];
        [discriminate|].
      apply IH. apply lookup_insert_eq.
Qed.

(** A run that ends, ends on an ai message: only the agent node leads to
    the end. *)
Lemma run_ends_on_ai_message (fuel : nat) :
  forall (node : Node) (thread : string) (saved saved' : gmap string AgentState)
         (state final : AgentState) (w w' : World),
    node <> END \/
      (exists c calls, lastOf (messages state) = Some (AIMessage c calls)) ->
    runGraph fuel node thread saved state w = (w', saved', inr final) ->
    exists c calls, lastOf (messages final) = Some (AIMessage c calls).
Proof.
  induction fuel as [|fuel IH];
    intros node thread saved saved' state final w w' Hnode.
  - destruct node; simpl; try discriminate.
    intros [= _ _ <-]. by destruct Hnode.
  - destruct (decide (node = END)) as [->|Hne].
    + rewrite run_END. intros [= _ _ <-]. by destruct Hnode.
    + rewrite run_unfold by done.
      destruct (step node state w) as [w1 [thrown|[node1 state1]]] eqn:Hstep;
        [discriminate|].
      apply IH. apply step_shape in Hstep.
      destruct node; try done.
      * destruct Hstep as [-> _]. by left.
      * destruct Hstep as (_ & Hai & _). by right.
      * destruct Hstep as [-> _]. by left.
Qed.

(** The configurations a run passes through keep the checkpoint in step
    with the state. *)
Lemma reaches_saved (thread : string)
    (c c' : Node * AgentState * gmap string AgentState * World) :
  reach thread c c' ->
  c.1.2 !! thread = Some c.1.1.2 ->
  c'.1.2 !! thread = Some c'.1.1.2.
Proof.
  induction 1 as [c|node state saved w w1 node1 state1 c' Hnode Hstep _ IH];
    [done|].
  intros _. apply IH. simpl. apply lookup_insert_eq.
Qed.

(** A run from [c] either stops at the recursion limit or goes on as the
    run from any configuration it reaches. *)
Lemma reaches_run (thread : string)
    (c c' : Node * AgentState * gmap string AgentState * World) :
  reach thread c c' ->
  forall fuel,
    (exists w' saved',
       runGraph fuel c.1.1.1 thread c.1.2 c.1.1.2 c.2
       = (w', saved', inl GraphRecursionError))
    \/ (exists fuel',
          runGraph fuel c.1.1.1 thread c.1.2 c.1.1.2 c.2
          = runGraph fuel' c'.1.1.1 thread c'.1.2 c'.1.1.2 c'.2).
Proof.
  induction 1 as [c|node state saved w w1 node1 state1 c' Hnode Hstep _ IH];
    intros fuel.
  - right. by exists fuel.
  - simpl. destruct fuel as [|fuel].
    + left. rewrite run_out_of_steps by done. by eexists _, _.
    + rewrite (run_next _ _ _ _ _ _ _ _ _ Hnode Hstep). apply IH.
Qed.

Lemma invoke_unfold (input : AgentStateUpdate) (thread : string)
    (saved : gmap string AgentState) (w : World) :
  invokeGraph input thread saved w
  = runGraph recursionLimit START thread
      (<[thread := applyUpdate (default defaultState (saved !! thread)) input]>
         saved)
      (applyUpdate (default defaultState (saved !! thread)) input) w.
Proof. reflexivity. Qed.

(** The recursion limit is never what ends an invocation. *)
Lemma invoke_within_recursion_limit (input : AgentStateUpdate)
    (thread : string) (saved saved' : gmap string AgentState) (w w' : World) :
  invokeGraph input thread saved w <> (w', saved', inl GraphRecursionError).
Proof.
  rewrite invoke_unfold. apply run_enough_fuel.
  unfold recursionLimit, transitionsLeft. lia.
Qed.

(** ** The loop as a whole *)

Lemma applyUpdate_keeps_iterations
    (state : AgentState) (update : AgentStateUpdate) :
  set_iterations update = None ->
  iterations (applyUpdate state update) = iterations state.
Proof. intros Hnone. simpl. by rewrite Hnone. Qed.

(** A run from the start that reaches the end. *)
Lemma run_from_START (fuel : nat) (thread : string)
    (saved saved' : gmap string AgentState) (state final : AgentState)
    (w w' : World) :
  runGraph fuel START thread saved state w = (w', saved', inr final) ->
  saved !! thread = Some state ->
  iterations final <= Nat.max 10 (iterations state + 1) /\
  (9 <= iterations state -> iterations final = iterations state + 1) /\
  saved' !! thread = Some final.
Proof.
  intros Hrun Hsaved. split; [|split].
  - by apply run_iterations_cap in Hrun.
  - intros Hover.
    destruct fuel as [|fuel]; [discriminate|].
    rewrite (run_next _ START _ _ _ _ w AGENT state) in Hrun by done.
    destruct fuel as [|fuel]; [discriminate|].
    rewrite run_unfold in Hrun by done.
    destruct (step AGENT state w) as [w1 [thrown|[node1 state1]]] eqn:Hstep;
      [discriminate|].
    apply step_shape in Hstep as (Hit & _ & [->|[_ Hlt]]); [|lia].
    rewrite run_END in Hrun. injection Hrun as _ _ <-. lia.
  - by eapply run_saves_final.
Qed.

(** C1, as the code has it: a run that reaches the end leaves [iterations]
    at most at the larger of 10 and one more than the value the thread's
    checkpoint carried in; so at most 10 on a new thread and whenever the
    checkpoint carried 9 or less, and exactly one more than the carried
    value once that value is 9 or more. *)
Theorem iterations_bound_per_thread
    (input : AgentStateUpdate) (thread : string)
    (saved saved' : gmap string AgentState) (w w' : World)
    (final : AgentState) :
  set_iterations input = None ->
  invokeGraph input thread saved w = (w', saved', inr final) ->
  let prior := iterations (default defaultState (saved !! thread)) in
  iterations final <= Nat.max 10 (prior + 1) /\
  (prior <= 9 -> iterations final <= 10) /\
  (saved !! thread = None -> iterations final <= 10) /\
  (9 <= prior -> iterations final = prior + 1) /\
  saved' !! thread = Some final.
Proof.
  intros Hinput Hrun prior. rewrite invoke_unfold in Hrun.
  apply run_from_START in Hrun as (Hcap & Hover & Hsaved);
    [|apply lookup_insert_eq].
  rewrite (applyUpdate_keeps_iterations _ _ Hinput) in Hcap, Hover.
  fold prior in Hcap, Hover.
  split; [done|]. split; [lia|]. split; [|by split].
  intros Hnew. subst prior. rewrite Hnew in Hcap. simpl in Hcap. lia.
Qed.

(** C5: when the model call of an agent step throws, at whatever point of
    the run, the step throws the same value, the invocation ends with it,
    and the thread's checkpoint is the state the step started from: no
    message was added for the failure. *)
Theorem model_failure_aborts_run
    (options : AgentInvokeOptions) (saved saved1 : gmap string AgentState)
    (w w0 w1 w' : World) (thread : string) (state1 : AgentState)
    (thrown : Thrown) :
  threadOf generateThreadId (opt_threadId options) w = (w0, thread) ->
  let state0 :=
    applyUpdate (default defaultState (saved !! thread))
      (userInput (opt_query options)) in
  reach thread (START, state0, <[thread := state0]> saved, w0)
               (AGENT, state1, saved1, w1) ->
  generate (SystemMessage (JStr SYSTEM_PROMPT) :: messages state1) w1
  = (w', inl thrown) ->
  agentNode generate state1 w1 = (w', inl thrown) /\
  invokeGraph (userInput (opt_query options)) thread saved w0
  = (w', saved1, inl (NodeError thrown)) /\
  invokeAgent generate send generateThreadId toolFailureContent config
    options saved w
  = (w', saved1, inl (NodeError thrown)) /\
  saved1 !! thread = Some state1.
Proof.
  intros Hthread state0 Hreach Hgen. subst state0.
  assert (Hnode : agentNode generate state1 w1 = (w', inl thrown)).
  { unfold agentNode. by rewrite Hgen. }
  assert (Hinvoke : invokeGraph (userInput (opt_query options)) thread saved w0
                    = (w', saved1, inl (NodeError thrown))).
  { destruct (reaches_run _ _ _ Hreach recursionLimit)
      as [(wx & sx & Hlimit)|[fuel' Hgo]]; cbn [fst snd] in *.
    - by apply invoke_within_recursion_limit in Hlimit.
    - destruct fuel' as [|fuel'].
      + rewrite run_out_of_steps in Hgo by done.
        by apply invoke_within_recursion_limit in Hgo.
      + rewrite invoke_unfold, Hgo.
        apply run_throws; [done|]. cbn [transition]. by rewrite Hnode. }
  split; [done|]. split; [done|]. split.
  - unfold invokeAgent. by rewrite Hthread, Hinvoke.
  - apply (reaches_saved _ _ _ Hreach). simpl. apply lookup_insert_eq.
Qed.


Lemma isTextBlock_spec (block : json) :
  isTextBlock block = true <->
  exists fields, block = JObj fields /\ field "type" fields = Some (JStr "text").
Proof.
  split.
  - destruct block as [| | | |items|fields]; simpl; try discriminate.
    destruct (field "type" fields) as [[| | |t| |]|] eqn:Htype;
      try discriminate.
    intros Heq. apply String.eqb_eq in Heq as ->. by exists fields.
  - intros (fields & -> & Htype). simpl. by rewrite Htype.
Qed.




End LoopProperties.

(** ** The properties on concrete runs *)

(** A first turn on a new thread: one retrieval, then the answer. *)
Lemma iterations_bound_per_thread_witness :
  exists w' saved' final,
    invoke Scenario.answering Scenario.sendThree Scenario.toolFailureContent
      Scenario.config (userInput "How much is the total budget?")
      "thread_a" ∅ Scenario.w0
    = (w', saved', inr final)
    /\ iterations final <= 10.
Proof.
  destruct (invoke Scenario.answering Scenario.sendThree
              Scenario.toolFailureContent Scenario.config
              (userInput "How much is the total budget?")
              "thread_a" ∅ Scenario.w0)
    as [[w' saved'] [failure|final]] eqn:Hrun.
  - exfalso. vm_compute in Hrun. discriminate.
  - exists w', saved', final. split; [reflexivity|].
    exact (proj1 (proj2 (proj2
             (iterations_bound_per_thread Scenario.World Scenario.answering
                Scenario.sendThree Scenario.toolFailureContent Scenario.config
                (userInput "How much is the total budget?") "thread_a"
                ∅ saved' Scenario.w0 w' final eq_refl Hrun)))
             eq_refl).
Defined.

(** C1 as stated fails on a resumed thread.  A model that asks for a
    retrieval on every turn ends its first invocation at the cap, with
    [iterations] 10 in the checkpoint; the next invocation on that thread
    runs one more agent step and ends with [iterations] 11. *)
Lemma resumed_thread_exceeds_cap :
  exists w1 saved1 first w2 saved2 final,
    invoke Scenario.alwaysCalling Scenario.sendFailing
      Scenario.toolFailureContent Scenario.config
      (userInput "How much is the total budget?") "thread_b" ∅ Scenario.w0
    = (w1, saved1, inr first)
    /\ iterations first = 10
    /\ invoke Scenario.alwaysCalling Scenario.sendFailing
         Scenario.toolFailureContent Scenario.config
         (userInput "And next year?") "thread_b" saved1 w1
       = (w2, saved2, inr final)
    /\ iterations final = 11
    /\ ~ iterations final <= 10.
Proof.
  eexists _, _, _, _, _, _.
  split; [vm_compute; reflexivity|].
  split; [reflexivity|].
  split; [vm_compute; reflexivity|].
  split; [reflexivity|].
  simpl. lia.
Qed.

(** Resuming a thread with four agent steps behind it gives the fifth. *)
Lemma agent_step_update_witness :
  agentNode Scenario.alwaysCalling Scenario.fourStepsIn Scenario.w0
  = (Scenario.noteModelCall
       (SystemMessage (JStr SYSTEM_PROMPT) :: messages Scenario.fourStepsIn)
       Scenario.w0,
     inr {| set_messages :=
              Some [AIMessage (JStr "Let me search.")
                      (Some [Scenario.budgetCall])];
            set_currentStep := Some "agent"%string;
            set_error := None;
            set_iterations := Some 5 |}).
Proof.
  exact (proj1 (agent_step_update Scenario.World Scenario.alwaysCalling
                  Scenario.fourStepsIn Scenario.w0 _ _ eq_refl)).
Defined.


(** After the failed retrieval the run goes on: the model is called a
    second time, with the error payload in its history, and answers. *)
Example failed_retrieval_run_continues :
  exists w' saved' final,
    invoke Scenario.answering Scenario.sendFailing Scenario.toolFailureContent
      Scenario.config (userInput "How much is the total budget?")
      "thread_c" ∅ Scenario.w0
    = (w', saved', inr final)
    /\ length (Scenario.modelCalls w') = 2
    /\ iterations final = 2
    /\ map toolCallIdOf (messages final)
       = [None; None; Some "call_1"%string; None].
Proof.
  eexists _, _, _. split; [vm_compute; reflexivity|]. by repeat split.
Qed.

(** The model provider goes down at the second agent step, after a tool
    step: the invocation fails with the provider's error, and the
    checkpoint ends on the tool message, with no ai message after it. *)
Lemma model_failure_aborts_run_witness :
  exists w' saved1 state1,
    invokeAgent Scenario.failingLater Scenario.sendThree
      Scenario.generateThreadId Scenario.toolFailureContent Scenario.config
      {| opt_query := "How much is the total budget?"; opt_threadId := None |}
      ∅ Scenario.w0
    = (w', saved1, inl (NodeError (ErrorObj "provider timeout")))
    /\ saved1 !! "thread_0"%string = Some state1
    /\ map toolCallIdOf (messages state1) = [None; None; Some "call_1"%string]
    /\ iterations state1 = 1.
Proof.
  eexists _, _, _.
  eassert (Hreach :
    reaches Scenario.failingLater Scenario.sendThree
      Scenario.toolFailureContent Scenario.config "thread_0"
      (START,
       applyUpdate (default defaultState ((∅ : gmap string AgentState) !! "thread_0"%string))
         (userInput "How much is the total budget?"),
       <["thread_0"%string :=
           applyUpdate (default defaultState ((∅ : gmap string AgentState) !! "thread_0"%string))
             (userInput "How much is the total budget?")]>
         (∅ : gmap string AgentState),
       (Scenario.generateThreadId Scenario.w0).1)
      (AGENT, _, _, _)).
  { eapply reaches_next; [discriminate|vm_compute; reflexivity|].
    eapply reaches_next; [discriminate|vm_compute; reflexivity|].
    eapply reaches_next; [discriminate|vm_compute; reflexivity|].
    apply reaches_here. }
  pose proof (model_failure_aborts_run Scenario.World Scenario.failingLater
                Scenario.sendThree Scenario.generateThreadId
                Scenario.toolFailureContent Scenario.config
                {| opt_query := "How much is the total budget?";
                   opt_threadId := None |}
                ∅ _ Scenario.w0 _ _ _ "thread_0" _ _
                eq_refl Hreach eq_refl) as (_ & _ & Hagent & Hsaved).
  split; [exact Hagent|]. split; [exact Hsaved|]. by split.
Defined.


(** A number, a missing property and [null] are rejected alike; a proper
    question goes through to the agent and is answered. *)
Example chat_route_cases :
  emptyOrNonString (prop "message" (JObj [("message", JNum 7)]))
  /\ emptyOrNonString (prop "message" (JObj [("text", JStr "hello")]))
  /\ emptyOrNonString (prop "message" (JObj [("message", JNull)]))
  /\ exists w' saved',
       chatRoute Scenario.answering Scenario.sendThree
         Scenario.generateThreadId Scenario.toolFailureContent
         Scenario.thinkingMatches Scenario.stripThinking Scenario.config
         (JObj [("message", JStr " How much is the total budget? ")])
         ∅ Scenario.w0
       = (w', saved',
          {| status := 200;
             body := JObj [("success", JBool true);
                           ("response", JStr "The total budget is 12.");
                           ("thinking", JArr []);
                           ("message", JStr "How much is the total budget?")] |})
       /\ length (Scenario.modelCalls w') = 2.
Proof.
  split; [by intros text|]. split; [by intros text|]. split; [by intros text|].
  eexists _, _. split; [vm_compute; reflexivity|reflexivity].
Qed.

(** The final message of the first turn has three blocks, one of which is
    not text: [invokeAgent] returns the two texts joined. *)
Example multi_block_answer :
  exists w' saved',
    invokeAgent Scenario.answering Scenario.sendThree Scenario.generateThreadId
      Scenario.toolFailureContent Scenario.config
      {| opt_query := "How much is the total budget?";
         opt_threadId := Some "thread_a"%string |}
      ∅ Scenario.w0
    = (w', saved', inr "The total budget is 12."%string)
  /\ getMessageText (AIMessage (JNum 3) None) = ""%string
  /\ getMessageText
       (AIMessage (JArr [JStr "bare"; JNull; textBlock "a";
                         JObj [("type", JStr "image_url")]; textBlock "b"])
          None)
     = "ab"%string.
Proof.
  eexists _, _. split; [vm_compute; reflexivity|]. by split.
Qed.

(** C7 as stated fails when an unusable chunk comes before a usable one:
    of the five results returned here the second is blank, and rank 2 holds
    the third returned chunk, not the second. *)
Lemma returned_position_is_not_rank :
  exists w' chunks,
    kbRetrievalTool Scenario.sendThree Scenario.config Scenario.budgetInput
      Scenario.w0
    = (w', stringify (JObj [("status", JStr "success");
                            ("totalResults", JNum 3);
                            ("query", JStr "total budget");
                            ("chunks", JArr chunks)]))
    /\ retrievalResults Scenario.threePassages
       = Some [ {| result_text := Some "Revenue"%string |};
                {| result_text := Some ""%string |};
                {| result_text := Some "Spending"%string |};
                {| result_text := None |};
                {| result_text := Some "Debt"%string |} ]
    /\ chunks !! 1
       = Some (JObj [("rank", JNum 2); ("text", JStr "Spending")])
    /\ (default [] (retrievalResults Scenario.threePassages)) !! 1
       = Some {| result_text := Some ""%string |}
    /\ length chunks = 3
    /\ length (default [] (retrievalResults Scenario.threePassages)) = 5.
Proof.
  eexists _, _. split; [reflexivity|]. by repeat split.
Qed.

(** * Further properties of the sources *)

(** ** Strings *)

Lemma append_cons (c : ascii) (s t : string) :
  (String c s +:+ t)%string = String c (s +:+ t).
Proof. reflexivity. Qed.

Lemma append_empty_l (s : string) : ("" +:+ s)%string = s.
Proof. reflexivity. Qed.

Lemma append_nil_r (s : string) : (s +:+ "")%string = s.
Proof.
  induction s as [|c s IH]; [reflexivity|]. by rewrite append_cons, IH.
Qed.

Lemma append_assoc (s t u : string) :
  ((s +:+ t) +:+ u)%string = (s +:+ t +:+ u)%string.
Proof.
  induction s as [|c s IH]; [reflexivity|]. by rewrite !append_cons, IH.
Qed.

Lemma length_append (s t : string) :
  String.length (s +:+ t) = String.length s + String.length t.
Proof.
  induction s as [|c s IH]; [reflexivity|].
  rewrite append_cons. simpl. by rewrite IH.
Qed.

Lemma length_takeChars (n : nat) (s : string) :
  String.length (takeChars n s) = Nat.min n (String.length s).
Proof.
  revert s. induction n as [|n IH]; intros [|c s]; simpl; try done.
  by rewrite IH.
Qed.

Lemma substring_from_start (to : Z) (s : string) :
  substring 0 to s
  = takeChars (Z.to_nat (Z.min (Z.max to 0) (Z.of_nat (String.length s)))) s.
Proof.
  unfold substring. cbv zeta.
  replace (Z.min (Z.max 0 0) (Z.of_nat (String.length s))) with 0%Z by lia.
  rewrite (Z.min_l 0), (Z.max_r 0), Z.sub_0_r by lia.
  by destruct s.
Qed.

(** ** [truncateText] *)

(** A text that fits is returned as it is.  A longer one is cut to its
    first [maxLength - 3] characters followed by three dots: the result
    fits [maxLength] as soon as [maxLength] is at least 3, and below 3 it
    is the three dots alone, which do not fit. *)
Theorem truncateText_length (text : string) (maxLength : Z) :
  ((Z.of_nat (String.length text) <= maxLength)%Z ->
     truncateText text maxLength = text) /\
  ((maxLength < Z.of_nat (String.length text))%Z ->
     truncateText text maxLength
     = (takeChars (Z.to_nat (maxLength - 3)) text +:+ "...")%string) /\
  ((3 <= maxLength)%Z ->
     (Z.of_nat (String.length (truncateText text maxLength)) <= maxLength)%Z) /\
  ((maxLength < 3)%Z -> (maxLength < Z.of_nat (String.length text))%Z ->
     truncateText text maxLength = "..."%string).
Proof.
  assert (Hcut : (maxLength < Z.of_nat (String.length text))%Z ->
     truncateText text maxLength
     = (takeChars (Z.to_nat (maxLength - 3)) text +:+ "...")%string).
  { intros Hlong. unfold truncateText.
    destruct (Z.leb_spec (Z.of_nat (String.length text)) maxLength); [lia|].
    rewrite substring_from_start. do 2 f_equal. lia. }
  split; [|split; [done|split]].
  - intros Hfits. unfold truncateText.
    by destruct (Z.leb_spec (Z.of_nat (String.length text)) maxLength); [|lia].
  - intros Hmax.
    destruct (Z.leb_spec (Z.of_nat (String.length text)) maxLength) as [Hfits|Hlong].
    + unfold truncateText.
      by destruct (Z.leb_spec (Z.of_nat (String.length text)) maxLength); [|lia].
    + rewrite (Hcut Hlong), length_append, length_takeChars. simpl. lia.
  - intros Hsmall Hlong. rewrite (Hcut Hlong).
    replace (Z.to_nat (maxLength - 3)) with 0 by lia. by destruct text.
Qed.

(** ** [formatMessages] and the message helpers *)

Lemma concat_app (sep : string) (l1 l2 : list string) :
  l1 <> [] -> l2 <> [] ->
  String.concat sep (l1 ++ l2)
  = (String.concat sep l1 +:+ sep +:+ String.concat sep l2)%string.
Proof.
  intros Hl1 Hl2. induction l1 as [|x [|y l1] IH]; [done| |].
  - destruct l2 as [|z l2]; [done|]. reflexivity.
  - change (String.concat sep ((x :: y :: l1) ++ l2))
      with (x +:+ sep +:+ String.concat sep ((y :: l1) ++ l2))%string.
    rewrite IH by done.
    change (String.concat sep (x :: y :: l1))
      with (x +:+ sep +:+ String.concat sep (y :: l1))%string.
    by rewrite !append_assoc.
Qed.

(** The format of a history is one line per message, in order: it is empty
    for no message, the line [[role]: text] for one, and for two histories
    put together it is their formats with a newline in between. *)
Theorem formatMessages_lines :
  formatMessages [] = ""%string /\
  (forall m,
     formatMessages [m]
     = ("[" +:+ getType m +:+ "]: " +:+ getMessageText m)%string) /\
  (forall h1 h2,
     h1 <> [] -> h2 <> [] ->
     formatMessages (h1 ++ h2)
     = (formatMessages h1 +:+ NEWLINE +:+ formatMessages h2)%string).
Proof.
  split; [reflexivity|]. split; [reflexivity|].
  intros h1 h2 Hh1 Hh2. unfold formatMessages, join.
  rewrite map_app. apply concat_app; by destruct h1, h2.
Qed.


(** ** The logger's threshold *)


(** ** [withRetry] *)

Section RetryProperties.

Variable World : Type.
Variable A : Type.
Variable fn : World -> World * (Thrown + A).
Variable sleep : Z -> World -> World.

Lemma noting_attempt_fails (remaining : nat)
    (attempt maxRetries initialDelay : Z) (lastError : option Thrown)
    (w w' : World) (log : list RetryEvent) (err : Thrown) :
  fn w = (w', inl err) ->
  retryLoop (notingFn fn) (notingSleep sleep) (S remaining) attempt
    maxRetries initialDelay lastError (w, log)
  = retryLoop (notingFn fn) (notingSleep sleep) remaining (attempt + 1)%Z
      maxRetries initialDelay (Some (asError err))
      (if (attempt <? maxRetries)%Z
       then (sleep (initialDelay * 2 ^ attempt)%Z w',
             (log ++ [Attempt (Some err)])
             ++ [Slept (initialDelay * 2 ^ attempt)%Z])
       else (w', log ++ [Attempt (Some err)])).
Proof.
  intros Hfn. simpl. unfold notingFn at 1. simpl. rewrite Hfn.
  by destruct (attempt <? maxRetries)%Z.
Qed.

Lemma noting_attempt_succeeds (remaining : nat)
    (attempt maxRetries initialDelay : Z) (lastError : option Thrown)
    (w w' : World) (log : list RetryEvent) (value : A) :
  fn w = (w', inr value) ->
  retryLoop (notingFn fn) (notingSleep sleep) (S remaining) attempt
    maxRetries initialDelay lastError (w, log)
  = ((w', log ++ [Attempt None]), inr value).
Proof. intros Hfn. simpl. unfold notingFn at 1. simpl. by rewrite Hfn. Qed.

(** Noting the events changes neither the world nor the result. *)
Lemma retryLoop_noting_erases (remaining : nat) :
  forall (attempt maxRetries initialDelay : Z) (lastError : option Thrown)
         (w : World) (log : list RetryEvent) (p : World * list RetryEvent)
         (result : Thrown + A),
    retryLoop (notingFn fn) (notingSleep sleep) remaining attempt
      maxRetries initialDelay lastError (w, log) = (p, result) ->
    retryLoop fn sleep remaining attempt maxRetries initialDelay lastError w
    = (p.1, result).
Proof.
  induction remaining as [|remaining IH];
    intros attempt maxRetries initialDelay lastError w log p result.
  - simpl. by intros [= <- <-].
  - destruct (fn w) as [w' [err|value]] eqn:Hfn.
    + rewrite (noting_attempt_fails _ _ _ _ _ _ _ _ _ Hfn).
      simpl. rewrite Hfn.
      destruct (attempt <? maxRetries)%Z; apply IH.
    + rewrite (noting_attempt_succeeds _ _ _ _ _ _ _ _ _ Hfn).
      simpl. rewrite Hfn. by intros [= <- <-].
Qed.

Lemma failures_app (front back : list Thrown) :
  forall (attempt maxRetries initialDelay : Z),
    failures (front ++ back) attempt maxRetries initialDelay
    = failures front attempt maxRetries initialDelay
      ++ failures back (attempt + Z.of_nat (length front))%Z maxRetries
           initialDelay.
Proof.
  induction front as [|err front IH]; intros attempt maxRetries initialDelay.
  - simpl. by rewrite Z.add_0_r.
  - cbn [failures app length]. rewrite IH, <- !app_assoc.
    replace (attempt + 1 + Z.of_nat (length front))%Z
      with (attempt + Z.of_nat (S (length front)))%Z by lia.
    reflexivity.
Qed.

(** Failures that leave room for another attempt are each followed by
    their sleep, the delay doubling from one to the next. *)
Lemma failures_all_slept (errs : list Thrown) :
  forall (attempt maxRetries initialDelay : Z),
    (attempt + Z.of_nat (length errs) <= maxRetries)%Z ->
    failures errs attempt maxRetries initialDelay
    = concat (imap (fun k err =>
                      [Attempt (Some err);
                       Slept (initialDelay * 2 ^ (attempt + Z.of_nat k))%Z])
                errs).
Proof.
  induction errs as [|err errs IH]; intros attempt maxRetries initialDelay Hroom;
    [done|].
  simpl in *.
  destruct (Z.ltb_spec attempt maxRetries); [|lia].
  rewrite IH by lia. simpl. rewrite Z.add_0_r. do 3 f_equal.
  apply imap_ext. intros k err' _. simpl.
  replace (attempt + 1 + Z.of_nat k)%Z with (attempt + Z.of_nat (S k))%Z
    by lia.
  reflexivity.
Qed.

(** The events of the loop: the failures it met, and the one success that
    ended it if there was one; when it falls through, every remaining
    iteration failed and what is thrown is the last failure made an
    [Error], or the [lastError] it started with. *)
Lemma retryLoop_events (remaining : nat) :
  forall (attempt maxRetries initialDelay : Z) (lastError : option Thrown)
         (w : World) (log : list RetryEvent) (p : World * list RetryEvent)
         (result : Thrown + A),
    retryLoop (notingFn fn) (notingSleep sleep) remaining attempt
      maxRetries initialDelay lastError (w, log) = (p, result) ->
    exists errs,
      match result with
      | inr _ =>
          p.2 = log ++ failures errs attempt maxRetries initialDelay
                    ++ [Attempt None]
          /\ length errs < remaining
      | inl thrown =>
          p.2 = log ++ failures errs attempt maxRetries initialDelay
          /\ length errs = remaining
          /\ thrown = match last errs with
                      | Some err => asError err
                      | None => default (NonError None) lastError
                      end
      end.
Proof.
  induction remaining as [|remaining IH];
    intros attempt maxRetries initialDelay lastError w log p result.
  - simpl. intros [= <- <-]. exists []. simpl. by rewrite app_nil_r.
  - destruct (fn w) as [w' [err|value]] eqn:Hfn.
    + rewrite (noting_attempt_fails _ _ _ _ _ _ _ _ _ Hfn).
      intros Hrest.
      assert (Hgo : exists log',
                 log' = (log ++ [Attempt (Some err)])
                        ++ (if (attempt <? maxRetries)%Z
                            then [Slept (initialDelay * 2 ^ attempt)%Z]
                            else [])
                 /\ exists w'',
                   retryLoop (notingFn fn) (notingSleep sleep) remaining
                     (attempt + 1)%Z maxRetries initialDelay
                     (Some (asError err)) (w'', log') = (p, result)).
      { destruct (attempt <? maxRetries)%Z; eexists; split; try reflexivity;
          eexists; [exact Hrest|]. rewrite app_nil_r. exact Hrest. }
      destruct Hgo as (log' & Hlog' & w'' & Hrun).
      apply IH in Hrun as [errs Herrs]. exists (err :: errs).
      destruct result as [thrown|value].
      * destruct Herrs as (Hlog & Hlen & Hthrown). split; [|split].
        -- rewrite Hlog, Hlog'. simpl. by rewrite <- !app_assoc.
        -- simpl. by rewrite Hlen.
        -- rewrite Hthrown, last_cons. by destruct (last errs).
      * destruct Herrs as (Hlog & Hlen). split.
        -- rewrite Hlog, Hlog'. simpl. by rewrite <- !app_assoc.
        -- simpl. lia.
    + rewrite (noting_attempt_succeeds _ _ _ _ _ _ _ _ _ Hfn).
      intros [= <- <-]. exists []. simpl. split; [done|lia].
Qed.

(** [withRetry] calls the operation at most [maxRetries + 1] times and
    stops at the first success.  Every failure before it is followed by a
    sleep of [initialDelay * 2 ^ k], k the index of the failed attempt; the
    world and the result are those of the run that is not observed. *)
Theorem withRetry_backoff (maxRetries initialDelay : Z) (w : World)
    (log : list RetryEvent) (p : World * list RetryEvent) (value : A) :
  withRetry (notingFn fn) (notingSleep sleep) maxRetries initialDelay (w, log)
  = (p, inr value) ->
  withRetry fn sleep maxRetries initialDelay w = (p.1, inr value) /\
  exists errs,
    (Z.of_nat (length errs) <= maxRetries)%Z /\
    p.2 = log
          ++ concat (imap (fun k err =>
                             [Attempt (Some err);
                              Slept (initialDelay * 2 ^ Z.of_nat k)%Z])
                       errs)
          ++ [Attempt None].
Proof.
  intros Hrun. unfold withRetry in *. split.
  - by apply retryLoop_noting_erases in Hrun.
  - apply retryLoop_events in Hrun as [errs [Hlog Hlen]].
    exists errs. split; [lia|].
    by rewrite Hlog, failures_all_slept by lia.
Qed.

(** When every attempt fails, [withRetry] has called the operation
    [maxRetries + 1] times, slept after each failure but the last, and
    throws the last failure, wrapped in an [Error] if it was not one.  With
    a negative [maxRetries] the operation is not called at all and the
    value thrown is [undefined]. *)
Theorem withRetry_exhausted (maxRetries initialDelay : Z) (w : World)
    (log : list RetryEvent) (p : World * list RetryEvent) (thrown : Thrown) :
  withRetry (notingFn fn) (notingSleep sleep) maxRetries initialDelay (w, log)
  = (p, inl thrown) ->
  withRetry fn sleep maxRetries initialDelay w = (p.1, inl thrown) /\
  ((maxRetries < 0)%Z -> p = (w, log) /\ thrown = NonError None) /\
  ((0 <= maxRetries)%Z ->
     exists front err,
       length front = Z.to_nat maxRetries /\
       thrown = asError err /\
       p.2 = log
             ++ concat (imap (fun k err' =>
                                [Attempt (Some err');
                                 Slept (initialDelay * 2 ^ Z.of_nat k)%Z])
                          front)
             ++ [Attempt (Some err)]).
Proof.
  intros Hrun. unfold withRetry in *. split; [|split].
  - by apply retryLoop_noting_erases in Hrun.
  - intros Hneg.
    replace (Z.to_nat (maxRetries + 1)) with 0 in Hrun by lia.
    simpl in Hrun. by injection Hrun as <- <-.
  - intros Hpos.
    apply retryLoop_events in Hrun as [errs (Hlog & Hlen & Hthrown)].
    destruct (decide (errs = [])) as [->|Hne]; [simpl in Hlen; lia|].
    apply exists_last in Hne as (front & err & ->).
    exists front, err.
    rewrite length_app in Hlen. simpl in Hlen.
    split; [lia|]. split.
    + by rewrite last_snoc in Hthrown.
    + rewrite Hlog, failures_app, failures_all_slept by lia. simpl.
      by destruct (Z.ltb_spec (0 + Z.of_nat (length front)) maxRetries);
        [lia|].
Qed.

End RetryProperties.

(** ** Threads and checkpoints *)

Section ThreadProperties.

Variable World : Type.
Variable generate : list Message -> World -> World * (Thrown + ModelReply).
Variable send : RetrieveCommand -> World -> World * (Thrown + RetrieveResponse).
Variable generateThreadId : World -> World * string.
Variable toolFailureContent : ToolCall -> string.
Variable config : Config.

Local Abbreviation step := (transition generate send toolFailureContent config).
Local Abbreviation runGraph := (run generate send toolFailureContent config).
Local Abbreviation invokeGraph :=
  (invoke generate send toolFailureContent config).






(** An invocation ends with an answer or with what a node threw: the
    engine's recursion limit is never what stops it, whatever the thread's
    checkpoint holds. *)
Theorem invokeAgent_never_out_of_steps
    (options : AgentInvokeOptions) (saved : gmap string AgentState)
    (w : World) :
  exists w' saved',
    (exists answer,
       invokeAgent generate send generateThreadId toolFailureContent config
         options saved w = (w', saved', inr answer))
    \/ (exists thrown,
          invokeAgent generate send generateThreadId toolFailureContent config
            options saved w = (w', saved', inl (NodeError thrown))).
Proof.
  unfold invokeAgent.
  destruct (threadOf generateThreadId (opt_threadId options) w) as [w0 thread].
  destruct (invokeGraph (userInput (opt_query options)) thread saved w0)
    as [[w1 saved1] [failure|final]] eqn:Hinvoke.
  - destruct failure as [thrown|].
    + exists w1, saved1. right. by exists thrown.
    + by apply invoke_within_recursion_limit in Hinvoke.
  - pose proof Hinvoke as Hai. rewrite invoke_unfold in Hai.
    apply run_ends_on_ai_message in Hai as (c & calls & Hlast); [|by left].
    rewrite Hlast. exists w1, saved1. left. by eexists.
Qed.

End ThreadProperties.

(** ** Model calls per invocation *)

Section CallCount.

Variable World : Type.
Variable generate : list Message -> World -> World * (Thrown + ModelReply).
Variable send : RetrieveCommand -> World -> World * (Thrown + RetrieveResponse).
Variable toolFailureContent : ToolCall -> string.
Variable config : Config.

Local Abbreviation counted := (countingModel generate).
Local Abbreviation beside := (besideCount send).

Lemma kbRetrievalTool_beside (input : KBInput) (w : World) (n : nat) :
  kbRetrievalTool beside config input (w, n)
  = ((kbRetrievalTool send config input w).1, n,
     (kbRetrievalTool send config input w).2).
Proof.
  unfold kbRetrievalTool, besideCount. simpl.
  destruct (send _ w) as [w' [thrown|response]]; simpl; [done|].
  by destruct (length (usableTexts response) =? 0).
Qed.

Lemma runTool_beside (call : ToolCall) (w : World) (n : nat) :
  runTool beside toolFailureContent config call (w, n)
  = ((runTool send toolFailureContent config call w).1, n,
     (runTool send toolFailureContent config call w).2).
Proof.
  unfold runTool.
  destruct (String.eqb _ _); [|done].
  destruct (kbRetrievalTool_schema _) as [input|]; [|done].
  rewrite kbRetrievalTool_beside.
  by destruct (kbRetrievalTool send config input w).
Qed.

Lemma runTools_beside (calls : list ToolCall) :
  forall (w : World) (n : nat),
    runTools beside toolFailureContent config calls (w, n)
    = ((runTools send toolFailureContent config calls w).1, n,
       (runTools send toolFailureContent config calls w).2).
Proof.
  induction calls as [|call rest IH]; intros w n; [done|].
  cbn [runTools]. rewrite runTool_beside.
  destruct (runTool send toolFailureContent config call w) as [w1 output].
  cbn [fst snd]. rewrite IH.
  by destruct (runTools send toolFailureContent config rest w1).
Qed.

(** One transition under the count: the agent node is the one that calls
    the model, once, whether the call succeeds or throws. *)
Lemma transition_counted (node : Node) (state : AgentState) (w : World)
    (n : nat) :
  transition counted beside toolFailureContent config node state (w, n)
  = ((transition generate send toolFailureContent config node state w).1,
     match node with AGENT => S n | _ => n end,
     (transition generate send toolFailureContent config node state w).2).
Proof.
  destruct node; try done.
  - cbn [transition]. unfold agentNode, countingModel. cbn [fst snd].
    by destruct (generate _ w) as [w' [thrown|reply]].
  - cbn [transition]. unfold toolNode.
    destruct (lastOf (messages state)) as [[c|c calls|c|c id]|]; try done.
    rewrite runTools_beside.
    by destruct (runTools send toolFailureContent config (default [] calls) w).
Qed.

Lemma run_counted (fuel : nat) :
  forall (node : Node) (thread : string) (saved saved' : gmap string AgentState)
         (state : AgentState) (w w' : World) (n n' : nat)
         (outcome : RunError + AgentState),
    run counted beside toolFailureContent config fuel node thread saved state
      (w, n) = ((w', n'), saved', outcome) ->
    run generate send toolFailureContent config fuel node thread saved state w
    = (w', saved', outcome) /\
    n <= n' /\ n' <= n + callsLeft node (iterations state) /\
    (forall final, outcome = inr final ->
                   n' + iterations state = n + iterations final).
Proof.
  induction fuel as [|fuel IH];
    intros node thread saved saved' state w w' n n' outcome.
  - destruct node; simpl; intros [= <- <- <- <-];
      (split; [done|]); (split; [lia|]); (split; [lia|]);
      intros final Hfinal; try discriminate.
    injection Hfinal as <-. lia.
  - destruct (decide (node = END)) as [->|Hnode].
    + rewrite !run_END. intros [= <- <- <- <-].
      split; [done|]. split; [lia|]. split; [simpl; lia|].
      intros final [= <-]. lia.
    + rewrite !run_unfold by done. rewrite transition_counted.
      destruct (transition generate send toolFailureContent config node state w)
        as [w1 [thrown|[node1 state1]]] eqn:Hstep; cbn [fst snd].
      * intros [= <- <- <- <-].
        split; [done|]. destruct node; simpl; repeat split; try done; lia.
      * intros Hrun.
        apply IH in Hrun as (Hsame & Hle & Hleft & Hfinal).
        apply step_shape in Hstep.
        split; [done|].
        destruct node; try done.
        -- destruct Hstep as [-> ->]. simpl in *. by repeat split.
        -- destruct Hstep as (Hit & _ & [->|[-> Hlt]]); simpl in *.
           ++ split; [lia|]. split; [lia|].
              intros final Heq. specialize (Hfinal final Heq). lia.
           ++ split; [lia|]. split; [lia|].
              intros final Heq. specialize (Hfinal final Heq). lia.
        -- destruct Hstep as [-> Hit]. simpl in *. rewrite Hit in *.
           by repeat split.
Qed.

Lemma run_counted_from_START (fuel : nat) (thread : string)
    (saved saved' : gmap string AgentState) (state : AgentState)
    (w w' : World) (n n' : nat) (outcome : RunError + AgentState) :
  2 <= fuel ->
  run counted beside toolFailureContent config fuel START thread saved state
    (w, n) = ((w', n'), saved', outcome) ->
  n < n'.
Proof.
  intros Hfuel Hrun. destruct fuel as [|[|fuel]]; [lia|lia|].
  erewrite run_next in Hrun; [|done|reflexivity].
  rewrite run_unfold, transition_counted in Hrun by done.
  destruct (transition generate send toolFailureContent config AGENT state w)
    as [w1 [thrown|[node1 state1]]]; cbn [fst snd] in Hrun.
  - injection Hrun as _ <- _ _. lia.
  - apply run_counted in Hrun as (_ & Hmore & _). lia.
Qed.

(** On a thread whose checkpoint carries [prior] agent steps, an invocation
    calls the model at least once and at most [max 1 (10 - prior)] times,
    so never more than ten times; when it reaches the end, the calls it made
    are exactly the steps it added to [iterations].  The count is kept
    beside the world and changes nothing in the run. *)
Theorem invoke_model_calls
    (input : AgentStateUpdate) (thread : string)
    (saved saved' : gmap string AgentState) (w w' : World) (n n' : nat)
    (outcome : RunError + AgentState) :
  set_iterations input = None ->
  invoke counted beside toolFailureContent config input thread saved (w, n)
  = ((w', n'), saved', outcome) ->
  let prior := iterations (default defaultState (saved !! thread)) in
  invoke generate send toolFailureContent config input thread saved w
  = (w', saved', outcome) /\
  n < n' /\
  n' <= n + Nat.max 1 (10 - prior) /\
  n' <= n + 10 /\
  (forall final, outcome = inr final -> n' + prior = n + iterations final).
Proof.
  intros Hinput Hrun prior. rewrite invoke_unfold in *.
  pose proof Hrun as Hcount.
  apply run_counted in Hcount as (Hsame & Hle & Hleft & Hfinal).
  rewrite (applyUpdate_keeps_iterations _ _ Hinput) in Hleft, Hfinal.
  fold prior in Hleft, Hfinal. simpl in Hleft.
  split; [done|]. split; [|split; [done|split; [lia|done]]].
  apply run_counted_from_START in Hrun; [done|].
  unfold recursionLimit. lia.
Qed.

End CallCount.

(** ** The payloads of the retrieval tool *)

(** Whatever the knowledge base does, the tool returns one of three
    payloads, each of which repeats the query: [error] when the request
    threw, [no_results] when no result has text, and otherwise [success],
    where [totalResults] is the number of chunks, at least one, and no
    chunk has an empty text. *)
Theorem kbRetrievalTool_payloads {World : Type}
    (send : RetrieveCommand -> World -> World * (Thrown + RetrieveResponse))
    (config : Config) (input : KBInput) (w : World) :
  exists payload,
    (kbRetrievalTool send config input w).2 = stringify payload /\
    prop "query" payload = Some (JStr (query input)) /\
    ((exists thrown,
        (send (retrieveCommand config input) w).2 = inl thrown /\
        payload = errorPayload input thrown)
     \/ (exists response,
           (send (retrieveCommand config input) w).2 = inr response /\
           usableTexts response = [] /\
           payload = noResultsPayload input)
     \/ (exists response chunks,
           (send (retrieveCommand config input) w).2 = inr response /\
           payload = successPayload input (usableTexts response) /\
           prop "status" payload = Some (JStr "success") /\
           prop "chunks" payload = Some (JArr chunks) /\
           chunks <> [] /\
           prop "totalResults" payload = Some (JNum (Z.of_nat (length chunks))) /\
           Forall (fun chunk =>
                     exists text, prop "text" chunk = Some (JStr text)
                                  /\ text <> ""%string)
             chunks)).
Proof.
  unfold kbRetrievalTool.
  destruct (send (retrieveCommand config input) w) as [w' [thrown|response]].
  - exists (errorPayload input thrown). repeat split. left. by exists thrown.
  - destruct (usableTexts response) as [|text texts] eqn:Husable.
    + exists (noResultsPayload input). repeat split. right. left.
      by exists response.
    + exists (successPayload input (text :: texts)). repeat split.
      right. right. exists response, (rankedChunks (text :: texts)).
      rewrite Husable. repeat split; try done.
      * by rewrite rankedChunks_length.
      * apply Forall_forall. intros chunk Hin.
        apply list_elem_of_lookup in Hin as [i Hi].
        rewrite rankedChunks_lookup in Hi.
        destruct ((text :: texts) !! i) as [t|] eqn:Ht; [|done].
        injection Hi as <-. exists t. split; [done|].
        assert (Husable' : t ∈ usableTexts response).
        { rewrite Husable. by eapply list_elem_of_lookup_2. }
        by apply usableTexts_spec in Husable' as [Hne _].
Qed.

(** ** Configuration *)

(** The configuration is read once: after a successful [getConfig], later
    calls return the same configuration whatever the environment has
    become; a failed [getConfig] caches nothing, so the next call reads the
    environment again; and [resetConfig] makes the next call read it
    again. *)
Theorem getConfig_cache (env env' : Env) :
  (forall parsed cache,
     getConfig env None = (cache, Some parsed) ->
     getConfig env' cache = (cache, Some parsed)) /\
  (forall cache,
     getConfig env None = (cache, None) ->
     getConfig env' cache = getConfig env' None) /\
  (forall cache,
     getConfig env' (resetConfig cache) = getConfig env' None) /\
  (forall cache parsed,
     (getConfig env cache).2 = Some parsed ->
     (getConfig env cache).1 = Some parsed).
Proof.
  unfold getConfig, resetConfig. repeat split.
  - intros parsed cache.
    destruct (ConfigSchema_parse env); [|discriminate].
    by intros [= <- <-].
  - intros cache. destruct (ConfigSchema_parse env); [discriminate|].
    by intros [= <-].
  - intros [cached|] parsed; simpl; [by intros [= ->]|].
    destruct (ConfigSchema_parse env); simpl; [by intros [= ->]|discriminate].
Qed.

(** With [LLM_PROVIDER] not set the provider is bedrock and the
    validation asks for no key.  With openai or anthropic it fails exactly
    when that provider's own key is missing or empty, whatever the other
    key is, and the error names the variable to set. *)
Theorem validateLlmConfig_keys (openaiKey anthropicKey : option string) :
  (forall provider,
     llmProviderField None = Some provider ->
     validateLlmConfig {| llmProvider := provider;
                          openaiApiKey := openaiKey;
                          anthropicApiKey := anthropicKey |} = None) /\
  (openaiKey = None \/ openaiKey = Some ""%string ->
   validateLlmConfig {| llmProvider := "openai";
                        openaiApiKey := openaiKey;
                        anthropicApiKey := anthropicKey |}
   = Some (ErrorObj "OPENAI_API_KEY is required when LLM_PROVIDER=openai")) /\
  (forall key,
     openaiKey = Some key -> key <> ""%string ->
     validateLlmConfig {| llmProvider := "openai";
                          openaiApiKey := openaiKey;
                          anthropicApiKey := anthropicKey |} = None) /\
  (anthropicKey = None \/ anthropicKey = Some ""%string ->
   validateLlmConfig {| llmProvider := "anthropic";
                        openaiApiKey := openaiKey;
                        anthropicApiKey := anthropicKey |}
   = Some (ErrorObj
             "ANTHROPIC_API_KEY is required when LLM_PROVIDER=anthropic")) /\
  (forall key,
     anthropicKey = Some key -> key <> ""%string ->
     validateLlmConfig {| llmProvider := "anthropic";
                          openaiApiKey := openaiKey;
                          anthropicApiKey := anthropicKey |} = None) /\
  (forall raw provider,
     llmProviderField raw = Some provider ->
     provider = "bedrock"%string \/ provider = "openai"%string
     \/ provider = "anthropic"%string).
Proof.
  split; [|split; [|split; [|split; [|split]]]].
  - intros provider [= <-]. reflexivity.
  - by intros [->| ->].
  - intros key -> Hkey. by destruct key.
  - by intros [->| ->].
  - intros key -> Hkey. by destruct key.
  - intros [raw|] provider; [|intros [= <-]; by left].
    unfold llmProviderField, enumField. simpl.
    destruct (String.eqb_spec raw "bedrock") as [->|_]; simpl;
      [intros [= <-]; by left|].
    destruct (String.eqb_spec raw "openai") as [->|_]; simpl;
      [intros [= <-]; right; by left|].
    destruct (String.eqb_spec raw "anthropic") as [->|_]; simpl;
      [intros [= <-]; right; by right|discriminate].
Qed.

(** [ConfigSchema] lets [postgres] and [redis] through as
    [checkpointerType], but [getCheckpointer] throws for both; every other
    accepted value, and no value at all, gives an empty [MemorySaver]. *)
Theorem getCheckpointer_memory_only (raw : option string) (kind : string) :
  checkpointerTypeField raw = Some kind ->
  (kind = "postgres"%string /\
   getCheckpointer kind
   = inl (ErrorObj
            "PostgresSaver not configured. Uncomment the import and setup in checkpointers/index.ts"))
  \/ (kind = "redis"%string /\
      getCheckpointer kind
      = inl (ErrorObj
               "RedisSaver not configured. Uncomment the import and setup in checkpointers/index.ts"))
  \/ (kind = "memory"%string /\ (raw = None \/ raw = Some "memory"%string)
      /\ getCheckpointer kind = inr ∅).
Proof.
  destruct raw as [raw|]; [|intros [= <-]; right; right; by auto].
  unfold checkpointerTypeField, enumField. simpl.
  destruct (String.eqb_spec raw "memory") as [->|_]; simpl;
    [intros [= <-]; right; right; by auto|].
  destruct (String.eqb_spec raw "postgres") as [->|_]; simpl;
    [intros [= <-]; by left|].
  destruct (String.eqb_spec raw "redis") as [->|_]; simpl;
    [intros [= <-]; right; by left|discriminate].
Qed.

(** ** Thread configuration *)

(** [createThreadConfig] keeps every additional property, and a
    [thread_id] among them replaces the thread id given; the configuration
    an entry point hands to the graph carries the thread's [configurable]
    only if the caller's [config] has none of its own. *)
Theorem createThreadConfig_spread (threadId : string)
    (additional : option (gmap string json)) :
  (forall key value,
     default ∅ additional !! key = Some value ->
     configurable (createThreadConfig threadId additional) !! key = Some value) /\
  (default ∅ additional !! "thread_id" = None ->
   configurable (createThreadConfig threadId additional) !! "thread_id"
   = Some (JStr threadId)) /\
  (forall key,
     key <> "thread_id"%string ->
     configurable (createThreadConfig threadId additional) !! key
     = default ∅ additional !! key) /\
  invokeConfigurable (createThreadConfig threadId None) None
  !! "thread_id" = Some (JStr threadId) /\
  (forall own,
     invokeConfigurable (createThreadConfig threadId None)
       (Some {| rc_configurable := Some own |}) !! "thread_id"
     = own !! "thread_id").
Proof.
  unfold createThreadConfig. simpl. repeat split.
  - intros key value Hkey. by apply lookup_union_Some_l.
  - intros Hnone. rewrite lookup_union_r by done.
    apply lookup_singleton_eq.
  - intros key Hkey. rewrite lookup_union_l; [done|].
    by apply lookup_singleton_ne.
Qed.

(** ** Tracing set-up *)

Section TracingProperties.

Variable World : Type.
Variable setDebugLogger : World -> World.
Variable instrumentAndRegister : TracerProvider -> World -> World.
Variable forceFlush : TracerProvider -> World -> World * option Thrown.
Variable shutdown : TracerProvider -> World -> World * option Thrown.

Local Abbreviation init :=
  (initArizeTracing setDebugLogger instrumentAndRegister).

(** Tracing is set up at most once.  A call that finds the module
    initialized changes nothing, whatever its options; so a second call after
    a successful one is without effect, and after [shutdownArizeTracing],
    which leaves the module variables as they are, tracing cannot be set up
    again. *)
Theorem initArizeTracing_once
    (options options' : option ArizeOptions) (env env' : ArizeEnv)
    (m m' : ArizeModule) (w w' w'' : World) :
  init options env m w = (m', w') ->
  _initialized m' = true ->
  init options' env' m' w'' = (m', w'') /\
  init options' env' m'
    (shutdownArizeTracing forceFlush shutdown m' w'')
  = (m', shutdownArizeTracing forceFlush shutdown m' w'') /\
  (_initialized m = false ->
   exists provider, _provider m' = Some provider /\ space_id provider <> ""%string
                    /\ api_key provider <> ""%string).
Proof.
  intros Hinit Hdone.
  assert (Hnoop : forall v, init options' env' m' v = (m', v)).
  { intros v. unfold initArizeTracing. by rewrite Hdone. }
  split; [apply Hnoop|]. split; [apply Hnoop|].
  intros Hfresh. unfold initArizeTracing in Hinit. rewrite Hfresh in Hinit.
  destruct (nullish (options ≫= ao_spaceId) (ARIZE_SPACE_ID env))
    as [spaceId|]; [|injection Hinit as <- _; congruence].
  destruct (nullish (options ≫= ao_apiKey) (ARIZE_API_KEY env))
    as [apiKey|]; [|injection Hinit as <- _; congruence].
  destruct spaceId as [|c1 spaceId]; [injection Hinit as <- _; congruence|].
  destruct apiKey as [|c2 apiKey]; [injection Hinit as <- _; congruence|].
  simpl in Hinit. injection Hinit as <- _. by eexists.
Qed.

(** Without both credentials nothing is set up and the module stays
    uninitialized, so a later call may still succeed.  An option that is
    given wins over the environment variable, even when it is the empty
    string: an empty [spaceId] or [apiKey] option skips the set-up although
    the environment holds a value. *)
Theorem initArizeTracing_credentials
    (options : option ArizeOptions) (env : ArizeEnv) (m : ArizeModule)
    (w : World) :
  _initialized m = false ->
  let spaceId := nullish (options ≫= ao_spaceId) (ARIZE_SPACE_ID env) in
  let apiKey := nullish (options ≫= ao_apiKey) (ARIZE_API_KEY env) in
  ((spaceId = None \/ spaceId = Some ""%string
    \/ apiKey = None \/ apiKey = Some ""%string) ->
   init options env m w = (m, w)) /\
  (forall given,
     options = Some given ->
     ao_spaceId given = Some ""%string \/ ao_apiKey given = Some ""%string ->
     init options env m w = (m, w)) /\
  (forall s k,
     spaceId = Some s -> apiKey = Some k -> s <> ""%string -> k <> ""%string ->
     exists w1,
       init options env m w
       = ({| _initialized := true;
             _provider :=
               Some {| project_name :=
                         default "opensearch-rag-agent"%string
                           (nullish (options ≫= ao_projectName)
                              (ARIZE_PROJECT_NAME env));
                       space_id := s;
                       api_key := k |} |},
          instrumentAndRegister
            {| project_name :=
                 default "opensearch-rag-agent"%string
                   (nullish (options ≫= ao_projectName)
                      (ARIZE_PROJECT_NAME env));
               space_id := s;
               api_key := k |} w1)).
Proof.
  intros Hfresh spaceId apiKey.
  assert (Hskip : (spaceId = None \/ spaceId = Some ""%string
                   \/ apiKey = None \/ apiKey = Some ""%string) ->
                  init options env m w = (m, w)).
  { intros Hmissing. unfold initArizeTracing. rewrite Hfresh.
    fold spaceId apiKey.
    destruct spaceId as [[|c1 s]|], apiKey as [[|c2 k]|]; try done.
    by destruct Hmissing as [?|[?|[?|?]]]. }
  split; [done|]. split.
  - intros given -> [Hs|Hk]; apply Hskip; subst spaceId apiKey; simpl.
    + rewrite Hs. by right; left.
    + rewrite Hk. by right; right; right.
  - intros s k Hs Hk Hsne Hkne. unfold initArizeTracing. rewrite Hfresh.
    fold spaceId apiKey. rewrite Hs, Hk.
    destruct s as [|c1 s]; [done|]. destruct k as [|c2 k]; [done|].
    simpl. by eexists.
Qed.

(** [ARIZE_ENABLED] switches tracing on for every value but the empty
    string: with credentials in the environment, the values [false] and
    [0] set tracing up just as [true] does, and only a variable that is
    absent or empty leaves it off. *)
Theorem autoInitTracing_flag (env : ArizeEnv) (w : World) (s k : string) :
  ARIZE_SPACE_ID env = Some s -> ARIZE_API_KEY env = Some k ->
  s <> ""%string -> k <> ""%string ->
  let fresh := {| _initialized := false; _provider := None |} in
  let started :=
    ({| _initialized := true;
        _provider :=
          Some {| project_name :=
                    default "openbook-rag-agent"%string (ARIZE_PROJECT_NAME env);
                  space_id := s;
                  api_key := k |} |},
     instrumentAndRegister
       {| project_name :=
            default "openbook-rag-agent"%string (ARIZE_PROJECT_NAME env);
          space_id := s;
          api_key := k |} w) in
  (forall value,
     value <> ""%string ->
     autoInitTracing setDebugLogger instrumentAndRegister (Some value) env
       fresh w = started) /\
  autoInitTracing setDebugLogger instrumentAndRegister (Some "false"%string)
    env fresh w = started /\
  autoInitTracing setDebugLogger instrumentAndRegister (Some ""%string) env
    fresh w = (fresh, w) /\
  autoInitTracing setDebugLogger instrumentAndRegister None env fresh w
  = (fresh, w).
Proof.
  intros Hs Hk Hsne Hkne fresh started.
  assert (Hon : forall value,
     value <> ""%string ->
     autoInitTracing setDebugLogger instrumentAndRegister (Some value) env
       fresh w = started).
  { intros value Hvalue. unfold autoInitTracing, booleanField.
    destruct value as [|c value]; [done|]. simpl.
    unfold initArizeTracing. simpl. rewrite Hs, Hk. simpl.
    destruct s as [|c1 s]; [done|]. destruct k as [|c2 k]; [done|].
    reflexivity. }
  split; [done|]. split; [by apply Hon|]. by split.
Qed.

End TracingProperties.

(** ** The chat route *)



Section ChatRouteProperties.

Variable World : Type.
Variable generate : list Message -> World -> World * (Thrown + ModelReply).
Variable send : RetrieveCommand -> World -> World * (Thrown + RetrieveResponse).
Variable generateThreadId : World -> World * string.
Variable toolFailureContent : ToolCall -> string.
Variable thinkingMatches : string -> list string.
Variable stripThinking : string -> string.
Variable config : Config.

Local Abbreviation route :=
  (chatRoute generate send generateThreadId toolFailureContent thinkingMatches
     stripThinking config).
Local Abbreviation ask :=
  (invokeAgent generate send generateThreadId toolFailureContent config).






End ChatRouteProperties.

(** ** The thinking pass *)

Lemma startsWith_sound (prefix : string) :
  forall s rest, startsWith prefix s = Some rest -> s = (prefix +:+ rest)%string.
Proof.
  induction prefix as [|a prefix IH]; intros s rest; simpl.
  - by intros [= ->].
  - destruct s as [|b s]; [discriminate|].
    destruct (Ascii.eqb_spec a b) as [->|_]; [|discriminate].
    intros Hrest. rewrite append_cons. f_equal. by apply IH.
Qed.

Lemma startsWith_complete (prefix rest : string) :
  startsWith prefix (prefix +:+ rest) = Some rest.
Proof.
  induction prefix as [|a prefix IH]; [by destruct rest|].
  rewrite append_cons. simpl. by rewrite Ascii.eqb_refl.
Qed.

Lemma cut_sound (needle : string) :
  forall hay before after,
    cut needle hay = Some (before, after) ->
    hay = (before +:+ needle +:+ after)%string.
Proof.
  induction hay as [|c tail IH]; intros before after.
  - simpl. destruct (startsWith needle "") as [rest|] eqn:Hstart; [|done].
    intros [= <- <-]. by apply startsWith_sound in Hstart.
  - simpl. destruct (startsWith needle (String c tail)) as [rest|] eqn:Hstart.
    + intros [= <- <-]. by apply startsWith_sound in Hstart.
    + destruct (cut needle tail) as [[before' after']|]; [|done].
      intros [= <- <-]. rewrite append_cons. f_equal. by apply IH.
Qed.

(** [cut] finds the leftmost occurrence. *)
Lemma cut_leftmost (needle : string) :
  forall hay before after a b,
    cut needle hay = Some (before, after) ->
    hay = (a +:+ needle +:+ b)%string ->
    String.length before <= String.length a.
Proof.
  induction hay as [|c tail IH]; intros before after a b.
  - simpl. destruct (startsWith needle "") as [rest|]; [|done].
    intros [= <- <-] _. simpl. lia.
  - simpl. destruct (startsWith needle (String c tail)) as [rest|] eqn:Hstart.
    + intros [= <- <-] _. simpl. lia.
    + destruct (cut needle tail) as [[before' after']|] eqn:Hcut; [|done].
      intros [= <- <-] Hhay.
      destruct a as [|c' a].
      * rewrite append_empty_l in Hhay.
        rewrite Hhay, startsWith_complete in Hstart. discriminate.
      * rewrite append_cons in Hhay. injection Hhay as -> ->.
        simpl. apply le_n_S. by eapply IH.
Qed.

Lemma cut_complete (needle hay : string) :
  occursIn needle hay -> is_Some (cut needle hay).
Proof.
  intros (before & after & ->).
  induction before as [|c before IH].
  - rewrite append_empty_l.
    assert (Hcut : cut needle (needle +:+ after) = Some (""%string, after)).
    { destruct (needle +:+ after)%string eqn:Hhay; simpl;
        by rewrite <- Hhay, startsWith_complete. }
    by rewrite Hcut.
  - rewrite append_cons. simpl.
    destruct (startsWith needle _); [done|].
    destruct IH as [[b a] ->]. done.
Qed.

Lemma cut_none (needle hay : string) :
  cut needle hay = None -> ~ occursIn needle hay.
Proof.
  intros Hcut Hocc. apply cut_complete in Hocc as [? Hsome]. congruence.
Qed.

(** Enough fuel: the scan of a text needs no more steps than the text has
    characters. *)
Lemma thinkingScan_fuel (fuel : nat) :
  forall fuel' raw,
    String.length raw <= fuel -> String.length raw <= fuel' ->
    thinkingScan fuel raw = thinkingScan fuel' raw.
Proof.
  induction fuel as [|fuel IH]; intros fuel' raw Hfuel Hfuel'.
  - destruct raw; [|simpl in Hfuel; lia]. by destruct fuel'.
  - destruct fuel' as [|fuel'].
    + destruct raw; [|simpl in Hfuel'; lia]. done.
    + simpl.
      destruct (cut THINKING_OPEN raw) as [[before inside]|] eqn:Hopen; [|done].
      destruct (cut THINKING_CLOSE inside) as [[thought rest]|] eqn:Hclose;
        [|done].
      apply cut_sound in Hopen, Hclose. subst raw inside.
      rewrite !length_append in Hfuel, Hfuel'. simpl in Hfuel, Hfuel'.
      by rewrite (IH fuel' rest) by lia.
Qed.

(** The scan of a text that holds a complete block, and of one that does
    not. *)
Lemma thinkingScan_block (raw before inside thought rest : string) :
  cut THINKING_OPEN raw = Some (before, inside) ->
  cut THINKING_CLOSE inside = Some (thought, rest) ->
  thinkingBodies raw = thought :: thinkingBodies rest /\
  withoutThinking raw = (before +:+ withoutThinking rest)%string.
Proof.
  intros Hopen Hclose. unfold thinkingBodies, withoutThinking.
  assert (Hlen : String.length rest < String.length raw).
  { apply cut_sound in Hopen, Hclose. subst raw inside.
    rewrite !length_append. simpl. lia. }
  destruct (String.length raw) as [|fuel] eqn:Hraw; [lia|].
  simpl. rewrite Hopen, Hclose.
  rewrite (thinkingScan_fuel fuel (String.length rest) rest) by lia.
  by destruct (thinkingScan (String.length rest) rest).
Qed.

Lemma thinkingScan_no_block (raw : string) :
  cut THINKING_OPEN raw = None
  \/ (exists before inside,
        cut THINKING_OPEN raw = Some (before, inside)
        /\ cut THINKING_CLOSE inside = None) ->
  thinkingBodies raw = [] /\ withoutThinking raw = raw.
Proof.
  unfold thinkingBodies, withoutThinking.
  intros [Hopen|(before & inside & Hopen & Hclose)];
    destruct (String.length raw); simpl; rewrite ?Hopen, ?Hclose; done.
Qed.

(** Induction along the blocks of a text. *)
Lemma thinking_blocks_ind (P : string -> Prop) :
  (forall raw,
     cut THINKING_OPEN raw = None
     \/ (exists before inside,
           cut THINKING_OPEN raw = Some (before, inside)
           /\ cut THINKING_CLOSE inside = None) ->
     P raw) ->
  (forall raw before inside thought rest,
     cut THINKING_OPEN raw = Some (before, inside) ->
     cut THINKING_CLOSE inside = Some (thought, rest) ->
     P rest -> P raw) ->
  forall raw, P raw.
Proof.
  intros Hnone Hblock raw.
  remember (String.length raw) as n eqn:Hn.
  revert raw Hn. induction n as [n IH] using lt_wf_ind. intros raw ->.
  destruct (cut THINKING_OPEN raw) as [[before inside]|] eqn:Hopen;
    [|apply Hnone; by left].
  destruct (cut THINKING_CLOSE inside) as [[thought rest]|] eqn:Hclose;
    [|apply Hnone; right; by exists before, inside].
  eapply Hblock; [done..|].
  eapply IH; [|done].
  apply cut_sound in Hopen, Hclose. subst raw inside.
  rewrite !length_append. simpl. lia.
Qed.

(** Every thought that is extracted stood in the raw answer between an
    opening and a closing tag, and holds no closing tag itself. *)
Theorem thinkingBodies_sound (raw thought : string) :
  thought ∈ thinkingBodies raw ->
  occursIn (THINKING_OPEN +:+ thought +:+ THINKING_CLOSE) raw /\
  ~ occursIn THINKING_CLOSE thought.
Proof.
  revert thought. pattern raw. apply thinking_blocks_ind; clear raw.
  - intros raw Hnone thought. apply thinkingScan_no_block in Hnone as [-> _].
    by intros ?%elem_of_nil.
  - intros raw before inside first rest Hopen Hclose IH thought.
    destruct (thinkingScan_block _ _ _ _ _ Hopen Hclose) as [-> _].
    pose proof (cut_sound _ _ _ _ Hopen) as Hraw.
    pose proof (cut_sound _ _ _ _ Hclose) as Hinside.
    intros [->|Hin]%elem_of_cons.
    + split.
      * exists before, rest. by rewrite Hraw, Hinside, !append_assoc.
      * intros (a & b & Hthought).
        assert (Hle : String.length first <= String.length a).
        { eapply (cut_leftmost _ _ _ _ a (b +:+ THINKING_CLOSE +:+ rest)%string);
            [exact Hclose|].
          by rewrite Hinside, Hthought, !append_assoc. }
        rewrite Hthought, !length_append in Hle. simpl in Hle. lia.
    + apply IH in Hin as [(a & b & Hrest) Hno]. split; [|done].
      exists (before +:+ THINKING_OPEN +:+ first +:+ THINKING_CLOSE +:+ a)%string, b.
      by rewrite Hraw, Hinside, Hrest, !append_assoc.
Qed.

(** Taking the thoughts out removes exactly them and their tags: the
    lengths of the cleaned text, of the thoughts and of one pair of tags
    for each add up to the length of the raw answer; and when no thought
    is found the answer is left as it is, which is the case whenever it
    holds no opening tag or no closing tag. *)
Theorem withoutThinking_accounts (raw : string) :
  String.length raw
  = String.length (withoutThinking raw)
    + list_sum (map (fun thought => String.length thought + 21)
                  (thinkingBodies raw)) /\
  (thinkingBodies raw = [] -> withoutThinking raw = raw) /\
  (~ occursIn THINKING_OPEN raw \/ ~ occursIn THINKING_CLOSE raw ->
   thinkingBodies raw = [] /\ withoutThinking raw = raw).
Proof.
  split; [|split].
  - pattern raw. apply thinking_blocks_ind; clear raw.
    + intros raw Hnone. apply thinkingScan_no_block in Hnone as [-> ->].
      simpl. lia.
    + intros raw before inside first rest Hopen Hclose IH.
      destruct (thinkingScan_block _ _ _ _ _ Hopen Hclose) as [-> ->].
      apply cut_sound in Hopen, Hclose. subst raw inside.
      rewrite !length_append. simpl. lia.
  - destruct (cut THINKING_OPEN raw) as [[before inside]|] eqn:Hopen.
    + destruct (cut THINKING_CLOSE inside) as [[thought rest]|] eqn:Hclose.
      * by destruct (thinkingScan_block _ _ _ _ _ Hopen Hclose) as [-> _].
      * intros _. apply thinkingScan_no_block. right. by exists before, inside.
    + intros _. apply thinkingScan_no_block. by left.
  - intros Hno. apply thinkingScan_no_block.
    destruct (cut THINKING_OPEN raw) as [[before inside]|] eqn:Hopen;
      [|by left].
    right. exists before, inside. split; [done|].
    destruct (cut THINKING_CLOSE inside) as [[thought rest]|] eqn:Hclose;
      [|done].
    exfalso. apply cut_sound in Hopen, Hclose. subst raw inside.
    destruct Hno as [Hno|Hno]; apply Hno.
    + by exists before, (thought +:+ THINKING_CLOSE +:+ rest)%string.
    + exists (before +:+ THINKING_OPEN +:+ thought)%string, rest.
      by rewrite !append_assoc.
Qed.

(** The text left after the thinking pass is not scanned again: what
    remains around a block that was taken out may itself read as a block. *)
Example withoutThinking_not_rescanned :
  thinkingBodies "<thin<thinking>a</thinking>king>b</thinking>c" = ["a"]%string
  /\ withoutThinking "<thin<thinking>a</thinking>king>b</thinking>c"
     = "<thinking>b</thinking>c"%string
  /\ thinkingBodies "x<thinking>never closed" = []
  /\ thinkingBodies "<thinking>p<thinking>q</thinking>r</thinking>"
     = ["p<thinking>q"]%string.
Proof. by vm_compute. Qed.

(** ** The further properties on concrete inputs *)

Lemma withRetry_backoff_witness :
  withRetry (notingFn Trial.busyTwice) (notingSleep Trial.noWait) 3 1000
    (0, [])
  = ((3, [Attempt (Some (NonError (Some (JStr "busy")))); Slept 1000;
          Attempt (Some (NonError (Some (JStr "busy")))); Slept 2000;
          Attempt None]),
     inr "done"%string)
  /\ withRetry Trial.busyTwice Trial.noWait 3 1000 0 = (3, inr "done"%string).
Proof.
  assert (Hrun :
    withRetry (notingFn Trial.busyTwice) (notingSleep Trial.noWait) 3 1000
      (0, [])
    = ((3, [Attempt (Some (NonError (Some (JStr "busy")))); Slept 1000;
            Attempt (Some (NonError (Some (JStr "busy")))); Slept 2000;
            Attempt None]),
       inr "done"%string)) by reflexivity.
  split; [exact Hrun|].
  exact (proj1 (withRetry_backoff nat string Trial.busyTwice Trial.noWait
                  3 1000 0 [] _ _ Hrun)).
Defined.

Lemma withRetry_exhausted_witness :
  withRetry (notingFn Trial.unavailable) (notingSleep Trial.noWait) 1 100
    (0, [])
  = ((2, [Attempt (Some (NonError (Some (JNum 503)))); Slept 100;
          Attempt (Some (NonError (Some (JNum 503))))]),
     inl (ErrorObj "503"))
  /\ withRetry Trial.unavailable Trial.noWait 1 100 0
     = (2, inl (ErrorObj "503")).
Proof.
  assert (Hrun :
    withRetry (notingFn Trial.unavailable) (notingSleep Trial.noWait) 1 100
      (0, [])
    = ((2, [Attempt (Some (NonError (Some (JNum 503)))); Slept 100;
            Attempt (Some (NonError (Some (JNum 503))))]),
       inl (ErrorObj "503"))) by reflexivity.
  split; [exact Hrun|].
  exact (proj1 (withRetry_exhausted nat string Trial.unavailable Trial.noWait
                  1 100 0 [] _ _ Hrun)).
Defined.




Lemma invoke_model_calls_witness :
  exists w' n' saved' outcome,
    invoke (countingModel Scenario.alwaysCalling)
      (besideCount Scenario.sendThree) Scenario.toolFailureContent
      Scenario.config (userInput "How much is the total budget?")
      "thread_a" ∅ (Scenario.w0, 0)
    = ((w', n'), saved', outcome)
    /\ 0 < n' /\ n' <= 0 + 10.
Proof.
  destruct (invoke (countingModel Scenario.alwaysCalling)
              (besideCount Scenario.sendThree) Scenario.toolFailureContent
              Scenario.config (userInput "How much is the total budget?")
              "thread_a" ∅ (Scenario.w0, 0))
    as [[[w' n'] saved'] outcome] eqn:Hrun.
  exists w', n', saved', outcome. split; [reflexivity|].
  pose proof (invoke_model_calls Scenario.World Scenario.alwaysCalling
                Scenario.sendThree Scenario.toolFailureContent Scenario.config
                (userInput "How much is the total budget?") "thread_a"
                ∅ saved' Scenario.w0 w' 0 n' outcome eq_refl Hrun)
    as (_ & Hmore & _ & Hten & _).
  by split.
Defined.

(** The model that asks for a tool on every turn is called ten times. *)
Example ten_model_calls_at_most :
  exists w' saved' final,
    invoke (countingModel Scenario.alwaysCalling)
      (besideCount Scenario.sendThree) Scenario.toolFailureContent
      Scenario.config (userInput "How much is the total budget?")
      "thread_a" ∅ (Scenario.w0, 0)
    = ((w', 10), saved', inr final).
Proof. eexists _, _, _. vm_compute. reflexivity. Qed.

Lemma getCheckpointer_memory_only_witness :
  checkpointerTypeField (Some "postgres"%string) = Some "postgres"%string
  /\ getCheckpointer "postgres"
     = inl (ErrorObj
              "PostgresSaver not configured. Uncomment the import and setup in checkpointers/index.ts").
Proof.
  split; [reflexivity|].
  destruct (getCheckpointer_memory_only (Some "postgres"%string) "postgres"
              eq_refl) as [[_ H]|[[H _]|[H _]]]; [exact H|discriminate..].
Defined.

Lemma initArizeTracing_once_witness :
  initArizeTracing Trial.setDebugLogger Trial.instrumentAndRegister None
    Trial.credentials Trial.fresh []
  = ({| _initialized := true;
        _provider := Some {| project_name := "opensearch-rag-agent";
                             space_id := "space-1";
                             api_key := "key-1" |} |},
     ["register opensearch-rag-agent"%string])
  /\ initArizeTracing Trial.setDebugLogger Trial.instrumentAndRegister
       (Some {| ao_spaceId := Some "space-2"%string;
                ao_apiKey := Some "key-2"%string;
                ao_projectName := Some "other"%string;
                ao_debug := true |})
       Trial.credentials
       {| _initialized := true;
          _provider := Some {| project_name := "opensearch-rag-agent";
                               space_id := "space-1";
                               api_key := "key-1" |} |}
       ["register opensearch-rag-agent"%string]
     = ({| _initialized := true;
           _provider := Some {| project_name := "opensearch-rag-agent";
                                space_id := "space-1";
                                api_key := "key-1" |} |},
        ["register opensearch-rag-agent"%string]).
Proof.
  split; [reflexivity|].
  exact (proj1 (initArizeTracing_once (list string) Trial.setDebugLogger
                  Trial.instrumentAndRegister Trial.forceFlush Trial.shutdown
                  None _ Trial.credentials Trial.credentials Trial.fresh _
                  [] _ _ eq_refl eq_refl)).
Defined.

Lemma initArizeTracing_credentials_witness :
  _initialized Trial.fresh = false
  /\ initArizeTracing Trial.setDebugLogger Trial.instrumentAndRegister
       (Some {| ao_spaceId := Some ""%string;
                ao_apiKey := None;
                ao_projectName := None;
                ao_debug := false |})
       Trial.credentials Trial.fresh []
     = (Trial.fresh, []).
Proof.
  split; [reflexivity|].
  exact (proj1 (proj2 (initArizeTracing_credentials (list string)
                         Trial.setDebugLogger Trial.instrumentAndRegister
                         (Some {| ao_spaceId := Some ""%string;
                                  ao_apiKey := None;
                                  ao_projectName := None;
                                  ao_debug := false |})
                         Trial.credentials Trial.fresh [] eq_refl))
           {| ao_spaceId := Some ""%string;
              ao_apiKey := None;
              ao_projectName := None;
              ao_debug := false |}
           eq_refl (or_introl eq_refl)).
Defined.

Lemma autoInitTracing_flag_witness :
  ARIZE_SPACE_ID Trial.credentials = Some "space-1"%string
  /\ ARIZE_API_KEY Trial.credentials = Some "key-1"%string
  /\ autoInitTracing Trial.setDebugLogger Trial.instrumentAndRegister
       (Some "false"%string) Trial.credentials Trial.fresh []
     = ({| _initialized := true;
           _provider := Some {| project_name := "openbook-rag-agent";
                                space_id := "space-1";
                                api_key := "key-1" |} |},
        ["register openbook-rag-agent"%string]).
Proof.
  split; [reflexivity|]. split; [reflexivity|].
  refine (proj1 (proj2 (autoInitTracing_flag (list string)
                          Trial.setDebugLogger Trial.instrumentAndRegister
                          Trial.credentials [] "space-1" "key-1"
                          eq_refl eq_refl _ _))); discriminate.
Defined.



Lemma thinkingBodies_sound_witness :
  "plan"%string ∈ thinkingBodies "<thinking>plan</thinking>The answer"
  /\ occursIn "<thinking>plan</thinking>" "<thinking>plan</thinking>The answer".
Proof.
  assert (Hin : "plan"%string
                ∈ thinkingBodies "<thinking>plan</thinking>The answer").
  { vm_compute. apply list_elem_of_singleton. reflexivity. }
  split; [exact Hin|].
  exact (proj1 (thinkingBodies_sound _ _ Hin)).
Defined.
